(** * ManagerObjects: the zip "manager objects" of Burlesco70/ManagerObjects

A shallow embedding of the four scripts [ZipReplace.py],
[ZipProcessor.py], [ScaleZip.py] and [ZipProcessorComposition.py].

Every script runs the same three steps on one archive: unzip it into the
directory [unzipped-<filename>], process every file of that directory,
zip the directory back over the archive and delete it.

The scripts only call library code ([pathlib], [zipfile], [shutil],
text files, [str.replace], [PIL.Image]); the first part of this file is
a model of those calls, the second part is the scripts themselves, one
Rocq module per Python file and one inner module per Python class.

Scope of the model.  The file system the scripts see is their current
directory: the archive is named by a plain file name of that directory,
as in the usage lines [python ZipReplace.py prova.zip Maria Mario] and
[python ScaleZip.py immagini.zip].  Symbolic links, permissions and
device errors are not modelled. *)

From Stdlib Require Import Strings.Byte Strings.Ascii NArith.
From stdpp Require Import gmap strings list.

#[local] Set Warnings "-register-all".
#[local] Open Scope string_scope.
#[local] Open Scope list_scope.
#[local] Open Scope nat_scope.

(** ** Python values *)

(** [bytes]: the content of a file on disk. *)
Definition bytes := list byte.

(** [str]: a sequence of Unicode code points. *)
Definition str := list N.

Definition LF : N := 10.
Definition CR : N := 13.

(** A Rocq string literal, read as a [str] or as [bytes] (one code point,
    respectively one byte, per character). *)
Fixpoint py (s : string) : str :=
  match s with
  | EmptyString => []
  | String c s' => N_of_ascii c :: py s'
  end.

Fixpoint raw (s : string) : bytes :=
  match s with
  | EmptyString => []
  | String c s' => byte_of_ascii c :: raw s'
  end.

(** [print] shows a list of strings with [repr], the text Python writes for
    it. *)
Class Repr := {
  repr_list : list string → string
}.

(** ["\n"] *)
Definition newline : string := String "010"%char EmptyString.

(** *** [str.replace]

[s.replace(old, new)] with the default count: every non-overlapping
occurrence of [old], leftmost first, is replaced by [new].  With an
empty [old], [new] is inserted before every character and at the end. *)

Fixpoint starts_with (old s : str) : bool :=
  match old, s with
  | [], _ => true
  | _ :: _, [] => false
  | a :: old', b :: s' => bool_decide (a = b) && starts_with old' s'
  end.

(** The scan over [s]: [skip] counts the characters of a match that are
    still to be passed over. *)
Fixpoint replace_scan (old new : str) (skip : nat) (s : str) : str :=
  match s with
  | [] => []
  | c :: s' =>
      match skip with
      | S k => replace_scan old new k s'
      | O =>
          if starts_with old s
          then new ++ replace_scan old new (length old - 1) s'
          else c :: replace_scan old new 0 s'
      end
  end.

Definition replace_empty (new s : str) : str :=
  new ++ flat_map (λ c, c :: new) s.

Definition str_replace (s old new : str) : str :=
  match old with
  | [] => replace_empty new s
  | _ :: _ => replace_scan old new 0 s
  end.

(** ** Text files

[path.open()] and [path.open("w")] open a file in text mode with the
default arguments: the bytes are decoded and encoded with the locale's
preferred encoding, and newlines are translated (universal newlines on
input, [os.linesep] on output). *)

Class Platform := {
  codec_decode : bytes → option str;
  codec_encode : str → option bytes;
  linesep : str
}.

(** Input translation: ["\r\n"] and a lone ["\r"] both become ["\n"]. *)
Fixpoint universal_newlines (s : str) : str :=
  match s with
  | [] => []
  | c :: s' =>
      if bool_decide (c = CR) then
        match s' with
        | c' :: s'' =>
            if bool_decide (c' = LF) then LF :: universal_newlines s''
            else LF :: universal_newlines s'
        | [] => [LF]
        end
      else c :: universal_newlines s'
  end.

(** Output translation: every ["\n"] becomes [os.linesep]. *)
Definition translate_linesep `{Platform} (s : str) : str :=
  flat_map (λ c, if bool_decide (c = LF) then linesep else [c]) s.

(** [file.read()] of a whole file. *)
Definition text_read `{Platform} (b : bytes) : option str :=
  universal_newlines <$> codec_decode b.

(** [file.write(contents)]. *)
Definition text_write `{Platform} (s : str) : option bytes :=
  codec_encode (translate_linesep s).

(** *** UTF-8, the preferred encoding of a POSIX locale *)

Definition utf8_scalar (lo c : N) : bool :=
  ((lo <=? c) && (c <? 0x110000) && negb ((0xD800 <=? c) && (c <? 0xE000)))%N.

(** [need] continuation bytes are still expected for the code point
    accumulated in [acc]; [lo] is the least value that is not overlong. *)
Fixpoint utf8_decode_from (need : nat) (acc lo : N) (b : bytes) : option str :=
  match b with
  | [] => match need with O => Some [] | S _ => None end
  | x :: b' =>
      let n := Byte.to_N x in
      match need with
      | O =>
          if (n <? 0x80)%N then cons n <$> utf8_decode_from 0 0 0 b'
          else if ((0xC2 <=? n) && (n <? 0xE0))%N
          then utf8_decode_from 1 (n - 0xC0) 0x80 b'
          else if ((0xE0 <=? n) && (n <? 0xF0))%N
          then utf8_decode_from 2 (n - 0xE0) 0x800 b'
          else if ((0xF0 <=? n) && (n <? 0xF5))%N
          then utf8_decode_from 3 (n - 0xF0) 0x10000 b'
          else None
      | S k =>
          if ((0x80 <=? n) && (n <? 0xC0))%N then
            let acc' := (acc * 64 + (n - 0x80))%N in
            match k with
            | O =>
                if utf8_scalar lo acc'
                then cons acc' <$> utf8_decode_from 0 0 0 b'
                else None
            | S _ => utf8_decode_from k acc' lo b'
            end
          else None
      end
  end.

Definition utf8_decode (b : bytes) : option str := utf8_decode_from 0 0 0 b.

Definition utf8_encode_char (c : N) : option bytes :=
  mapM Byte.of_N
    (if (c <? 0x80)%N then [c]
     else if (c <? 0x800)%N then [0xC0 + c / 64; 0x80 + c mod 64]
     else if (c <? 0x10000)%N then
       if utf8_scalar 0 c
       then [0xE0 + c / 4096; 0x80 + (c / 64) mod 64; 0x80 + c mod 64]
       else [0x100]
     else if (c <? 0x110000)%N then
       [0xF0 + c / 262144; 0x80 + (c / 4096) mod 64;
        0x80 + (c / 64) mod 64; 0x80 + c mod 64]
     else [0x100])%N.

Definition utf8_encode (s : str) : option bytes :=
  (λ chunks, concat chunks) <$> mapM utf8_encode_char s.

(** A POSIX system with a UTF-8 locale. *)
Definition posix_utf8 : Platform :=
  {| codec_decode := utf8_decode; codec_encode := utf8_encode;
     linesep := [LF] |}.

(** ** The file system, exceptions and effects *)

(** A directory entry: a regular file, or a directory with its entries. *)
Inductive node :=
  | File (data : bytes)
  | Dir (children : gmap string node).

(** The exceptions the library calls of the scripts raise.  The [OSError]
    family records the path it failed on; [UnidentifiedImageError] names it
    in its message; [UnicodeDecodeError] and [UnicodeEncodeError] know the
    codec and the data but not the file.  The image library raises more
    than these: [KeyError] with the key that a table lacks, and, from the
    reader or the writer of a format, an exception of any class,
    [OtherError] with the name of the class and the message. *)
Inductive exn :=
  | FileExistsError (path : string)
  | FileNotFoundError (path : string)
  | IsADirectoryError (path : string)
  | NotADirectoryError (path : string)
  | BadZipFile
  | UnicodeDecodeError
  | UnicodeEncodeError
  | UnidentifiedImageError (path : string)
  | ValueError (msg : string)
  | OSError (msg : string)
  | KeyError (key : string)
  | OtherError (class_name msg : string).

(** The path an exception object names, if any. *)
Definition exn_path (e : exn) : option string :=
  match e with
  | FileExistsError p | FileNotFoundError p | IsADirectoryError p
  | NotADirectoryError p | UnidentifiedImageError p => Some p
  | BadZipFile | UnicodeDecodeError | UnicodeEncodeError
  | ValueError _ | OSError _ | KeyError _ | OtherError _ _ => None
  end.

(** A member of an archive: its name and its data. *)
Definition member : Type := string * bytes.

(** What a run leaves behind apart from files: the lines it printed and the
    calls of [shutil.rmtree]. *)
Inductive event :=
  | Printed (line : string)
  | Rmtree (path : string).

#[global] Instance event_eq_dec : EqDecision event.
Proof. solve_decision. Defined.

(** The state of a run: the current directory, the members written so far
    to the [ZipFile] object open for writing, and the events so far (most
    recent first). *)
Record world := World {
  cwd : gmap string node;
  zip_members : list member;
  events : list event
}.

(** The number of calls of [shutil.rmtree(dir)] so far. *)
Definition rmtree_calls (dir : string) (w : world) : nat :=
  length (filter (λ ev, ev = Rmtree dir) (events w)).

Inductive outcome (A : Type) :=
  | Ok (a : A)
  | Raise (e : exn).
Arguments Ok {A} a.
Arguments Raise {A} e.

(** A computation: the effects made before an exception stay made. *)
Definition M (A : Type) : Type := world → outcome A * world.

#[global] Instance M_ret : MRet M := λ A a w, (Ok a, w).
#[global] Instance M_bind : MBind M := λ A B f m w,
  match m w with
  | (Ok a, w') => f a w'
  | (Raise e, w') => (Raise e, w')
  end.

Definition raise {A} (e : exn) : M A := λ w, (Raise e, w).
Definition get_cwd : M (gmap string node) := λ w, (Ok (cwd w), w).
Definition modify (f : world → world) : M unit := λ w, (Ok (), f w).
Definition set_cwd (d : gmap string node) : M unit :=
  modify (λ w, World d (zip_members w) (events w)).
Definition emit (ev : event) : M unit :=
  modify (λ w, World (cwd w) (zip_members w) (ev :: events w)).

(** [print(line)]. *)
Definition print (line : string) : M unit := emit (Printed line).

(** [try: body except <handled>: handler]. *)
Definition try_except {A} (body : M A) (handled : exn → bool) (handler : M A)
  : M A :=
  λ w, match body w with
       | (Raise e, w') => if handled e then handler w' else (Raise e, w')
       | r => r
       end.

(** [with enter as x: body]: [leave] runs on every way out of [body]. *)
Definition with_ {X A} (enter : M X) (leave : M unit) (body : X → M A) : M A :=
  λ w, match enter w with
       | (Raise e, w') => (Raise e, w')
       | (Ok x, w') =>
           match body x w' with
           | (r, w'') =>
               match leave w'' with
               | (Ok _, w''') => (r, w''')
               | (Raise e, w''') => (Raise e, w''')
               end
           end
       end.

(** [for x in l: body]. *)
Fixpoint for_each {A} (l : list A) (body : A → M unit) : M unit :=
  match l with
  | [] => mret ()
  | x :: l' => body x ;; for_each l' body
  end.

(** ** [pathlib], [zipfile], [shutil] and text files *)

(** The archive format, as [zipfile] reads and writes it. *)
Class ZipCodec := {
  zip_parse : bytes → option (list member);
  zip_build : list member → bytes
}.

(** [str(dir / name)]. *)
Definition child_path (dir name : string) : string := dir +:+ "/" +:+ name.

(** The pieces of a member name between its ["/"]. *)
Fixpoint split_slash (s : string) : list string :=
  match s with
  | EmptyString => [EmptyString]
  | String c s' =>
      if bool_decide (c = "/"%char) then EmptyString :: split_slash s'
      else match split_slash s' with
           | x :: xs => String c x :: xs
           | [] => [String c EmptyString]
           end
  end.

Fixpoint ends_with_slash (s : string) : bool :=
  match s with
  | EmptyString => false
  | String c EmptyString => bool_decide (c = "/"%char)
  | String _ s' => ends_with_slash s'
  end.

(** Where [ZipFile.extract] puts a member below the target directory: the
    empty, ["."] and [".."] pieces of its name are dropped. *)
Definition member_path (name : string) : list string :=
  filter (λ x, x ≠ EmptyString ∧ x ≠ "." ∧ x ≠ "..") (split_slash name).

(** Extraction of one member to the path [comps] below the directory [d]
    ([here] is the path of [d]): missing directories are created
    ([os.makedirs]); a regular file where a directory is needed, a directory
    where the file is to be written, or a regular file where a directory
    member is to be made, is an error. *)
Fixpoint extract_at (comps : list string) (is_dir : bool) (data : bytes)
    (here : string) (d : gmap string node) : exn + gmap string node :=
  match comps with
  | [] => inr d
  | c :: comps' =>
      match comps' with
      | [] =>
          if is_dir then
            match d !! c with
            | Some (Dir _) => inr d
            | Some (File _) => inl (FileExistsError (child_path here c))
            | None => inr (<[c := Dir ∅]> d)
            end
          else
            match d !! c with
            | Some (Dir _) => inl (IsADirectoryError (child_path here c))
            | _ => inr (<[c := File data]> d)
            end
      | c' :: _ =>
          match d !! c with
          | Some (File _) =>
              inl (NotADirectoryError (child_path (child_path here c) c'))
          | Some (Dir d') =>
              match extract_at comps' is_dir data (child_path here c) d' with
              | inl e => inl e
              | inr d'' => inr (<[c := Dir d'']> d)
              end
          | None =>
              match extract_at comps' is_dir data (child_path here c) ∅ with
              | inl e => inl e
              | inr d'' => inr (<[c := Dir d'']> d)
              end
          end
      end
  end.

(** The member that [ZipFile.write] stores for a directory entry: a regular
    file with its data, a directory as an empty member named [arcname/]. *)
Definition zip_member (arcname : string) (n : node) : member :=
  match n with
  | File b => (arcname, b)
  | Dir _ => (arcname +:+ "/", [])
  end.

Definition is_FileExistsError (e : exn) : bool :=
  match e with FileExistsError _ => true | _ => false end.

(** The arguments [name] below are names of the current directory, the
    arguments [dir], [name] the entry [name] of the directory [dir]. *)
Section Library.
Context `{Platform} `{ZipCodec}.

(** [Path(dir).mkdir()]. *)
Definition Path_mkdir (dir : string) : M unit :=
  d ← get_cwd;
  match d !! dir with
  | Some _ => raise (FileExistsError dir)
  | None => set_cwd (<[dir := Dir ∅]> d)
  end.

(** [Path(dir).iterdir()]: the entries of [dir], not of its
    subdirectories. *)
Definition Path_iterdir (dir : string) : M (list string) :=
  d ← get_cwd;
  match d !! dir with
  | Some (Dir here) => mret (map_to_list here).*1
  | Some (File _) => raise (NotADirectoryError dir)
  | None => raise (FileNotFoundError dir)
  end.

Definition lookup_child (dir name : string) : M node :=
  d ← get_cwd;
  match d !! dir with
  | Some (Dir here) =>
      match here !! name with
      | Some n => mret n
      | None => raise (FileNotFoundError (child_path dir name))
      end
  | Some (File _) => raise (NotADirectoryError (child_path dir name))
  | None => raise (FileNotFoundError (child_path dir name))
  end.

Definition store_child (dir name : string) (data : bytes) : M unit :=
  d ← get_cwd;
  match d !! dir with
  | Some (Dir here) =>
      match here !! name with
      | Some (Dir _) => raise (IsADirectoryError (child_path dir name))
      | _ => set_cwd (<[dir := Dir (<[name := File data]> here)]> d)
      end
  | Some (File _) => raise (NotADirectoryError (child_path dir name))
  | None => raise (FileNotFoundError (child_path dir name))
  end.

(** [(dir / name).open()]: the file object, here the bytes to read. *)
Definition Path_open (dir name : string) : M bytes :=
  n ← lookup_child dir name;
  match n with
  | File b => mret b
  | Dir _ => raise (IsADirectoryError (child_path dir name))
  end.

(** [file.read()]. *)
Definition file_read (file : bytes) : M str :=
  match text_read file with
  | Some s => mret s
  | None => raise UnicodeDecodeError
  end.

(** [(dir / name).open("w")]: the file is truncated when it is opened. *)
Definition Path_open_w (dir name : string) : M (string * string) :=
  store_child dir name [] ;; mret (dir, name).

(** [file.write(contents)]: nothing is written when the text cannot be
    encoded. *)
Definition file_write (file : string * string) (contents : str) : M unit :=
  match text_write contents with
  | Some b => store_child file.1 file.2 b
  | None => raise UnicodeEncodeError
  end.

(** Leaving a [with] block of a text file or of an archive open for
    reading closes it. *)
Definition close : M unit := mret ().

(** [zipfile.ZipFile(name)]: the archive object, here its members. *)
Definition ZipFile_open (name : string) : M (list member) :=
  d ← get_cwd;
  match d !! name with
  | None => raise (FileNotFoundError name)
  | Some (Dir _) => raise (IsADirectoryError name)
  | Some (File b) =>
      match zip_parse b with
      | Some ms => mret ms
      | None => raise BadZipFile
      end
  end.

(** [zip.extract(m, dir)]. *)
Definition ZipFile_extract (dir : string) (m : member) : M unit :=
  let comps := member_path m.1 in
  let is_dir := ends_with_slash m.1 in
  if bool_decide (comps = []) && negb is_dir
  then raise (ValueError "Empty filename.")
  else
    d ← get_cwd;
    match d !! dir with
    | Some (File _) =>
        raise (match comps with
               | [] => FileExistsError dir
               | c :: _ => NotADirectoryError (child_path dir c)
               end)
    | Some (Dir here) =>
        match extract_at comps is_dir m.2 dir here with
        | inl e => raise e
        | inr here' => set_cwd (<[dir := Dir here']> d)
        end
    | None =>
        match extract_at comps is_dir m.2 dir ∅ with
        | inl e => raise e
        | inr here' => set_cwd (<[dir := Dir here']> d)
        end
    end.

(** [zip.extractall(dir)]. *)
Definition ZipFile_extractall (zip : list member) (dir : string) : M unit :=
  for_each zip (ZipFile_extract dir).

(** [zipfile.ZipFile(name, 'w')]: the file is created or truncated. *)
Definition ZipFile_open_w (name : string) : M unit :=
  d ← get_cwd;
  match d !! name with
  | Some (Dir _) => raise (IsADirectoryError name)
  | _ => modify (λ w, World (<[name := File []]> d) [] (events w))
  end.

(** [file.write(str(dir / name), arcname)]: what is below a directory is
    not visited. *)
Definition ZipFile_write (dir name arcname : string) : M unit :=
  n ← lookup_child dir name;
  modify (λ w, World (cwd w) (zip_members w ++ [zip_member arcname n])
                     (events w)).

(** Leaving the [with] block of an archive open for writing: the archive
    file holds the members written so far. *)
Definition ZipFile_close_w (name : string) : M unit :=
  modify (λ w, World (<[name := File (zip_build (zip_members w))]> (cwd w))
                     (zip_members w) (events w)).

(** [shutil.rmtree(dir)]. *)
Definition shutil_rmtree (dir : string) : M unit :=
  emit (Rmtree dir) ;;
  d ← get_cwd;
  match d !! dir with
  | Some (Dir _) => set_cwd (delete dir d)
  | Some (File _) => raise (NotADirectoryError dir)
  | None => raise (FileNotFoundError dir)
  end.
End Library.

(** ** [PIL.Image] *)

(** What [Image.open] makes of the content of a file: an image file whose
    pixels are not read yet, no format that recognises the content, or an
    exception of the format that does. *)
Inductive open_result (A : Type) :=
  | Opened (f : A)
  | Unidentified
  | OpenFailed (e : exn).
Arguments Opened {A} f.
Arguments Unidentified {A}.
Arguments OpenFailed {A} e.

(** What [save] does of an image under a file name.  The format is looked
    up by the extension of the name, then the writer of the format, and
    only then is the file opened for writing: [UnknownExtension ext] when no
    format is registered for the extension [ext], [NoSaveHandler format]
    when the format can be read but not written, [CannotWrite e partial]
    when the writer raises [e] after it has written [partial]. *)
Inductive save_result :=
  | Saved (b : bytes)
  | UnknownExtension (ext : string)
  | NoSaveHandler (format : string)
  | CannotWrite (e : exn) (partial : bytes).

(** The image library: identifying a file, loading its pixels, resampling,
    and encoding in the format that the extension of the file name selects.
    An image in memory is its size, width and height, and its pixels. *)
Class PIL := {
  image_file : Type;
  raster : Type;
  image_identify : bytes → open_result image_file;
  image_load : image_file → exn + N * N * raster;
  resample : N * N * raster → N * N → raster;
  image_encode : string → N * N * raster → save_result
}.

Section Image.
Context `{PIL}.

Definition image : Type := N * N * raster.

(** [im.size]. *)
Definition image_size (im : image) : N * N := im.1.

(** What [im.resize(size)] returns once the pixels are loaded: a new image
    of the requested size, whatever the size of [im]. *)
Definition image_resize (im : image) (size : N * N) : image :=
  (size, resample im size).

(** The image that a file decodes to: it is identified and its pixels
    load. *)
Definition image_decode (b : bytes) : option image :=
  match image_identify b with
  | Opened f =>
      match image_load f with
      | inr im => Some im
      | inl _ => None
      end
  | _ => None
  end.

(** The exception that [save] raises, if any. *)
Definition save_error (r : save_result) : option exn :=
  match r with
  | Saved _ => None
  | UnknownExtension ext =>
      Some (ValueError ("unknown file extension: " +:+ ext))
  | NoSaveHandler format => Some (KeyError format)
  | CannotWrite e _ => Some e
  end.

(** [Image.open(str(dir / name))]: the file is opened and identified, the
    pixels are not read. *)
Definition Image_open (dir name : string) : M image_file :=
  n ← lookup_child dir name;
  match n with
  | Dir _ => raise (IsADirectoryError (child_path dir name))
  | File b =>
      match image_identify b with
      | Opened f => mret f
      | Unidentified => raise (UnidentifiedImageError (child_path dir name))
      | OpenFailed e => raise e
      end
  end.

(** [im.resize(size)]: the pixels are loaded, which may fail, and
    resampled to the requested size. *)
Definition Image_resize (im : image_file) (size : N * N) : M image :=
  match image_load im with
  | inr loaded => mret (image_resize loaded size)
  | inl e => raise e
  end.

(** [im.save(str(dir / name))]: the format and its writer are chosen before
    the file is opened for writing; the file is there already, so it is not
    removed when the writer fails. *)
Definition Image_save (im : image) (dir name : string) : M unit :=
  match image_encode name im with
  | Saved b => store_child dir name b
  | UnknownExtension ext =>
      raise (ValueError ("unknown file extension: " +:+ ext))
  | NoSaveHandler format => raise (KeyError format)
  | CannotWrite e partial => store_child dir name partial ;; raise e
  end.
End Image.

(** * The scripts *)

(** ** [ZipReplace.py]: the manager object of part 1 *)
Module ZipReplace_py.
Module ZipReplace.
Record t := {
  filename : string;
  search_string : str;
  replace_string : str;
  temp_directory : string
}.

Definition __init__ (filename : string) (search_string replace_string : str)
  : t :=
  {| filename := filename;
     search_string := search_string;
     replace_string := replace_string;
     temp_directory := "unzipped-" +:+ filename |}.

Section Methods.
Context `{Platform} `{ZipCodec}.

Definition unzip_files (self : t) : M unit :=
  try_except (Path_mkdir (temp_directory self)) is_FileExistsError
    (print "WARNING: temp dir already present!") ;;
  with_ (ZipFile_open (filename self)) close (λ zip,
    ZipFile_extractall zip (temp_directory self)).

Definition find_replace (self : t) : M unit :=
  names ← Path_iterdir (temp_directory self);
  for_each names (λ filename,
    contents ← with_ (Path_open (temp_directory self) filename) close
      (λ file,
        contents ← file_read file;
        mret (str_replace contents
                (search_string self) (replace_string self)));
    with_ (Path_open_w (temp_directory self) filename) close (λ file,
      file_write file contents)).

Definition zip_files (self : t) : M unit :=
  with_ (ZipFile_open_w (filename self)) (ZipFile_close_w (filename self))
    (λ _,
      names ← Path_iterdir (temp_directory self);
      for_each names (λ filename,
        ZipFile_write (temp_directory self) filename filename)) ;;
  shutil_rmtree (temp_directory self).

(** The delegator method. *)
Definition zip_find_replace (self : t) : M unit :=
  unzip_files self ;;
  find_replace self ;;
  zip_files self.
End Methods.
End ZipReplace.

(** The script, [if __name__ == "__main__":], with [argv] for [sys.argv].
    [len(sys.argv[1:]) == 3] holds exactly when [sys.argv[1:]] is three
    arguments, which are then [sys.argv[1:4]]. *)
Definition main `{Platform} `{ZipCodec} `{Repr} (argv : list string)
  : M unit :=
  match drop 1 argv with
  | [filename; search_string; replace_string] =>
      ZipReplace.zip_find_replace
        (ZipReplace.__init__ filename (py search_string) (py replace_string)) ;;
      print ("ZipReplace.zip_find_replace() executed with parameters: "
             +:+ " " +:+ repr_list [filename; search_string; replace_string])
  | _ =>
      print "Please check the number of arguments" ;;
      print ("Usage example:" +:+ newline
             +:+ "python ZipReplace.py prova.zip Maria Mario")
  end.
End ZipReplace_py.

(** ** [ZipProcessor.py]: the superclass and [ZipReplace] as a subclass *)
Module ZipProcessor_py.
Module ZipProcessor.
Record t := {
  filename : string;
  temp_directory : string
}.

Definition __init__ (filename : string) : t :=
  {| filename := filename;
     temp_directory := "unzipped-" +:+ filename |}.

(** A class that derives from [ZipProcessor]: its instances hold the
    attributes of the superclass, and [self.process_files()] is looked up
    in the class of [self]. *)
Class Derived (Self : Type) := {
  super : Self → t;
  self_process_files : Self → M unit
}.

Section Methods.
Context `{Platform} `{ZipCodec}.

Definition unzip_files (self : t) : M unit :=
  try_except (Path_mkdir (temp_directory self)) is_FileExistsError
    (print "WARNING: temp dir already present!") ;;
  with_ (ZipFile_open (filename self)) close (λ zip,
    ZipFile_extractall zip (temp_directory self)).

Definition process_files (self : t) : M unit := mret ().

Definition zip_files (self : t) : M unit :=
  with_ (ZipFile_open_w (filename self)) (ZipFile_close_w (filename self))
    (λ _,
      names ← Path_iterdir (temp_directory self);
      for_each names (λ filename,
        ZipFile_write (temp_directory self) filename filename)) ;;
  shutil_rmtree (temp_directory self).

(** The delegator method. *)
Definition process_zip {Self} `{Derived Self} (self : Self) : M unit :=
  unzip_files (super self) ;;
  self_process_files self ;;
  zip_files (super self).

#[global] Instance itself : Derived t :=
  {| super := id; self_process_files := process_files |}.
End Methods.
End ZipProcessor.

Module ZipReplace.
Record t := {
  base : ZipProcessor.t;
  search_string : str;
  replace_string : str
}.

Definition __init__ (filename : string) (search_string replace_string : str)
  : t :=
  {| base := ZipProcessor.__init__ filename;
     search_string := search_string;
     replace_string := replace_string |}.

Definition filename (self : t) : string := ZipProcessor.filename (base self).
Definition temp_directory (self : t) : string :=
  ZipProcessor.temp_directory (base self).

Section Methods.
Context `{Platform} `{ZipCodec}.

(** Perform search and replace for each file. *)
Definition process_files (self : t) : M unit :=
  names ← Path_iterdir (temp_directory self);
  for_each names (λ filename,
    contents ← with_ (Path_open (temp_directory self) filename) close
      (λ file,
        contents ← file_read file;
        mret (str_replace contents
                (search_string self) (replace_string self)));
    with_ (Path_open_w (temp_directory self) filename) close (λ file,
      file_write file contents)).

#[global] Instance derived : ZipProcessor.Derived t :=
  {| ZipProcessor.super := base;
     ZipProcessor.self_process_files := process_files |}.
End Methods.
End ZipReplace.

(** The script, [if __name__ == "__main__":], with [argv] for [sys.argv];
    the two messages are those of [ZipReplace.py]. *)
Definition main `{Platform} `{ZipCodec} `{Repr} (argv : list string)
  : M unit :=
  match drop 1 argv with
  | [filename; search_string; replace_string] =>
      ZipProcessor.process_zip
        (ZipReplace.__init__ filename (py search_string) (py replace_string)) ;;
      print ("ZipReplace.zip_find_replace() executed with parameters: "
             +:+ " " +:+ repr_list [filename; search_string; replace_string])
  | _ =>
      print "Please check the number of arguments" ;;
      print ("Usage example:" +:+ newline
             +:+ "python ZipReplace.py prova.zip Maria Mario")
  end.
End ZipProcessor_py.

(** ** [ScaleZip.py]: the photo scaler as a subclass *)
Module ScaleZip_py.
Module ZipProcessor.
Record t := {
  filename : string;
  temp_directory : string
}.

Definition __init__ (filename : string) : t :=
  {| filename := filename;
     temp_directory := "unzipped-" +:+ filename |}.

Class Derived (Self : Type) := {
  super : Self → t;
  self_process_files : Self → M unit
}.

Section Methods.
Context `{ZipCodec}.

Definition unzip_files (self : t) : M unit :=
  try_except (Path_mkdir (temp_directory self)) is_FileExistsError
    (print "WARNING: temp dir already present!") ;;
  with_ (ZipFile_open (filename self)) close (λ zip,
    ZipFile_extractall zip (temp_directory self)).

Definition process_files (self : t) : M unit := mret ().

Definition zip_files (self : t) : M unit :=
  with_ (ZipFile_open_w (filename self)) (ZipFile_close_w (filename self))
    (λ _,
      names ← Path_iterdir (temp_directory self);
      for_each names (λ filename,
        ZipFile_write (temp_directory self) filename filename)) ;;
  shutil_rmtree (temp_directory self).

(** The delegator method. *)
Definition process_zip {Self} `{Derived Self} (self : Self) : M unit :=
  unzip_files (super self) ;;
  self_process_files self ;;
  zip_files (super self).

#[global] Instance itself : Derived t :=
  {| super := id; self_process_files := process_files |}.
End Methods.
End ZipProcessor.

Module ScaleZip.
Record t := { base : ZipProcessor.t }.

Definition __init__ (filename : string) : t :=
  {| base := ZipProcessor.__init__ filename |}.

Definition filename (self : t) : string := ZipProcessor.filename (base self).
Definition temp_directory (self : t) : string :=
  ZipProcessor.temp_directory (base self).

Section Methods.
Context `{PIL}.

(** Scale each image to 640x480. *)
Definition process_files (self : t) : M unit :=
  names ← Path_iterdir (temp_directory self);
  for_each names (λ filename,
    im ← Image_open (temp_directory self) filename;
    scaled ← Image_resize im (640, 480)%N;
    Image_save scaled (temp_directory self) filename).

#[global] Instance derived : ZipProcessor.Derived t :=
  {| ZipProcessor.super := base;
     ZipProcessor.self_process_files := process_files |}.
End Methods.
End ScaleZip.

(** The script, [if __name__ == "__main__":], with [argv] for [sys.argv]. *)
Definition main `{ZipCodec} `{PIL} `{Repr} (argv : list string) : M unit :=
  match drop 1 argv with
  | [filename] =>
      ZipProcessor.process_zip (ScaleZip.__init__ filename) ;;
      print ("ScaleZip.process_zip() executed with parameters: "
             +:+ " " +:+ repr_list [filename])
  | _ =>
      print "Please check the number of arguments" ;;
      print ("Usage example:" +:+ newline +:+ "python ScaleZip.py immagini.zip")
  end.
End ScaleZip_py.

(** ** [ZipProcessorComposition.py]: the processor as a component *)
Module ZipProcessorComposition_py.
Module ZipProcessor.
Record t (P : Type) := {
  filename : string;
  processor : P;
  temp_directory : string
}.
Arguments filename {P} _.
Arguments processor {P} _.
Arguments temp_directory {P} _.

Definition __init__ {P} (processor : P) (filename : string) : t P :=
  {| filename := filename;
     processor := processor;
     temp_directory := "unzipped-" +:+ filename |}.

(** A processor is any object that implements [process_files]. *)
Class Processor (P : Type) := {
  processor_process_files : P → t P → M unit
}.

Section Methods.
Context `{ZipCodec}.

Definition unzip_files {P} (self : t P) : M unit :=
  try_except (Path_mkdir (temp_directory self)) is_FileExistsError
    (print "WARNING: temp dir already present!") ;;
  with_ (ZipFile_open (filename self)) close (λ zip,
    ZipFile_extractall zip (temp_directory self)).

Definition zip_files {P} (self : t P) : M unit :=
  with_ (ZipFile_open_w (filename self)) (ZipFile_close_w (filename self))
    (λ _,
      names ← Path_iterdir (temp_directory self);
      for_each names (λ filename,
        ZipFile_write (temp_directory self) filename filename)) ;;
  shutil_rmtree (temp_directory self).

(** The delegator method. *)
Definition process_zip {P} `{Processor P} (self : t P) : M unit :=
  unzip_files self ;;
  processor_process_files (processor self) self ;;
  zip_files self.
End Methods.
End ZipProcessor.

Module ZipReplace.
Record t := {
  search_string : str;
  replace_string : str
}.

Definition __init__ (search_string replace_string : str) : t :=
  {| search_string := search_string; replace_string := replace_string |}.

Section Methods.
Context `{Platform}.

(** Perform search and replace for each file. *)
Definition process_files (self : t) (zipprocessor : ZipProcessor.t t)
  : M unit :=
  names ← Path_iterdir (ZipProcessor.temp_directory zipprocessor);
  for_each names (λ fname,
    contents ←
      with_ (Path_open (ZipProcessor.temp_directory zipprocessor) fname)
        close (λ file,
          contents ← file_read file;
          mret (str_replace contents
                  (search_string self) (replace_string self)));
    with_ (Path_open_w (ZipProcessor.temp_directory zipprocessor) fname)
      close (λ file, file_write file contents)).

#[global] Instance processor : ZipProcessor.Processor t :=
  {| ZipProcessor.processor_process_files := process_files |}.
End Methods.
End ZipReplace.

Module ScaleZip.
Record t := {}.

Definition __init__ : t := Build_t.

Section Methods.
Context `{PIL}.

(** Scale each image to 640x480. *)
Definition process_files (self : t) (zipprocessor : ZipProcessor.t t)
  : M unit :=
  names ← Path_iterdir (ZipProcessor.temp_directory zipprocessor);
  for_each names (λ fname,
    im ← Image_open (ZipProcessor.temp_directory zipprocessor) fname;
    scaled ← Image_resize im (640, 480)%N;
    Image_save scaled (ZipProcessor.temp_directory zipprocessor) fname).

#[global] Instance processor : ZipProcessor.Processor t :=
  {| ZipProcessor.processor_process_files := process_files |}.
End Methods.
End ScaleZip.

(** The calls at the end of the script. *)
Definition examples `{Platform} `{ZipCodec} `{PIL} : M unit :=
  let sz := ScaleZip.__init__ in
  ZipProcessor.process_zip (ZipProcessor.__init__ sz "Immagini.zip") ;;
  let zr := ZipReplace.__init__ (py "Mario") (py "Maria") in
  ZipProcessor.process_zip (ZipProcessor.__init__ zr "provaReplace.zip").
End ZipProcessorComposition_py.

(** * Concrete libraries, to run the scripts on concrete inputs *)

(** A length in unary: [n] bytes [x01] and a byte [x00]. *)
Definition unary (n : nat) : bytes := replicate n x01 ++ [x00].

Fixpoint take_unary (b : bytes) : option (nat * bytes) :=
  match b with
  | x00 :: b' => Some (0, b')
  | x01 :: b' => prod_map S id <$> take_unary b'
  | _ => None
  end.

Fixpoint string_of_bytes (b : bytes) : string :=
  match b with
  | [] => EmptyString
  | x :: b' => String (ascii_of_byte x) (string_of_bytes b')
  end.

(** A container of stored members, standing for the zip format: the magic
    ["PK"], then for every member the length of its name, the name, the
    length of its data and the data. *)
Definition stored_build (ms : list member) : bytes :=
  raw "PK" ++
  flat_map (λ m, unary (length (raw m.1)) ++ raw m.1 ++
                 unary (length m.2) ++ m.2) ms.

Fixpoint stored_members (fuel : nat) (b : bytes) : option (list member) :=
  match fuel with
  | O => match b with [] => Some [] | _ :: _ => None end
  | S fuel' =>
      match b with
      | [] => Some []
      | _ :: _ =>
          '(n, b1) ← take_unary b;
          guard (n ≤ length b1)%nat;;
          '(k, b2) ← take_unary (drop n b1);
          guard (k ≤ length b2)%nat;;
          ms ← stored_members fuel' (drop k b2);
          Some ((string_of_bytes (take n b1), take k b2) :: ms)
      end
  end.

Definition stored_parse (b : bytes) : option (list member) :=
  match b with
  | x50 :: x4b :: b' => stored_members (length b') b'
  | _ => None
  end.

Definition stored : ZipCodec :=
  {| zip_parse := stored_parse; zip_build := stored_build |}.

(** A raster format that keeps only the size of the picture: the width and
    the height in unary.  Names without an extension select no format. *)
Fixpoint has_extension (name : string) : bool :=
  match name with
  | EmptyString => false
  | String c name' => bool_decide (c = "."%char) || has_extension name'
  end.

(** The header of that format. *)
Definition blank_header (b : bytes) : option (N * N) :=
  '(w, b1) ← take_unary b;
  '(h, b2) ← take_unary b1;
  guard (b2 = []);;
  Some (N.of_nat w, N.of_nat h).

Definition blank_file (size : N * N) : bytes :=
  unary (N.to_nat size.1) ++ unary (N.to_nat size.2).

Definition blank : PIL :=
  {| image_file := N * N;
     raster := unit;
     image_identify := λ b,
       match blank_header b with
       | Some size => Opened size
       | None => Unidentified
       end;
     image_load := λ f, inr (f, ());
     resample := λ _ _, ();
     image_encode := λ name im,
       if has_extension name
       then Saved (blank_file im.1)
       else UnknownExtension EmptyString |}.

(** The same library with the writer of icons as Pillow has it: an [.ico]
    file holds the picture in the sizes of a list that fit in it, squares
    of at most 256 by 256, each made with [thumbnail], which keeps the
    aspect ratio, and it opens at the size of its largest frame. *)
Fixpoint is_ico (name : string) : bool :=
  match name with
  | EmptyString => false
  | String "."%char (String "i"%char (String "c"%char
      (String "o"%char EmptyString))) => true
  | String _ name' => is_ico name'
  end.

Definition ico_sizes : list N := [16; 24; 32; 48; 64; 128; 256]%N.

(** The size that [thumbnail((box, box))] gives a picture (rounded down,
    which is exact for 640 by 480). *)
Definition thumbnail_size (size : N * N) (box : N) : N * N :=
  let '(w, h) := size in
  if ((w <=? box) && (h <=? box))%N then (w, h)
  else if (h <=? w)%N then (box, N.max 1 (box * h / w))%N
       else (N.max 1 (box * w / h), box)%N.

(** The largest frame of the icon of a picture; a picture in which no size
    of the list fits, which the scripts never save, is stored as it is. *)
Definition ico_frame (size : N * N) : N * N :=
  match reverse (filter (λ box, (box ≤ size.1 ∧ box ≤ size.2)%N) ico_sizes)
  with
  | box :: _ => thumbnail_size size box
  | [] => size
  end.

Definition icons : PIL :=
  {| image_file := N * N;
     raster := unit;
     image_identify := λ b,
       match blank_header b with
       | Some size => Opened size
       | None => Unidentified
       end;
     image_load := λ f, inr (f, ());
     resample := λ _ _, ();
     image_encode := λ name im,
       if is_ico name then Saved (blank_file (ico_frame im.1))
       else if has_extension name then Saved (blank_file im.1)
       else UnknownExtension EmptyString |}.

(** [repr] of a list of strings without quotes, backslashes or control
    characters: each one between single quotes. *)
Fixpoint quoted_items (l : list string) : string :=
  match l with
  | [] => EmptyString
  | [x] => "'" +:+ x +:+ "'"
  | x :: l' => "'" +:+ x +:+ "', " +:+ quoted_items l'
  end.

Definition quoted : Repr :=
  {| repr_list := λ l, "[" +:+ quoted_items l +:+ "]" |}.

(** The current directory with the given files, before a run. *)
Definition start (files : list (string * node)) : world :=
  World (list_to_map files) [] [].

(** The members of the archive [name], read back with the [stored] format. *)
Definition stored_archive (w : world) (name : string) : option (list member) :=
  match cwd w !! name with
  | Some (File b) => stored_parse b
  | _ => None
  end.

(** The scenario of the specification: [a.png] of 100 by 100 and [b.jpg] of
    1920 by 1080. *)
Definition photos : world :=
  start [("photos.zip",
          File (stored_build
                  [("a.png", unary 100 ++ unary 100);
                   ("b.jpg", unary 1920 ++ unary 1080)]))].


(** A file of the old Mac OS, with a carriage return between two lines. *)
Definition classic : world :=
  start [("unzipped-a.zip", Dir {[ "mac.txt" := File [x61; x0d; x62] ]})].

(** A Unix file, with a line feed between two lines. *)
Definition unix : world :=
  start [("unzipped-a.zip", Dir {[ "unix.txt" := File [x61; x0a; x62] ]})].

(** An archive with one icon of 32 by 32. *)
Definition icon_archive : world :=
  start [("icons.zip",
          File (stored_build [("logo.ico", unary 32 ++ unary 32)]))].

(** An extracted archive with an image under a name without extension. *)
Definition unnamed_format : world :=
  start [("unzipped-a.zip", Dir {[ "README" := File (unary 2 ++ unary 3) ]})].

(** An archive with one member that is neither text nor an image. *)
Definition binary : world :=
  start [("sample.zip", File (stored_build [("photo.raw", [xff])]))].


(** The name of the temporary directory is taken by a regular file. *)
Definition occupied : world :=
  start [("sample.zip", File (stored_build [("note.txt", raw "x")]));
         ("unzipped-sample.zip", File (raw "not a directory"))].

(** An archive and a file that has nothing to do with it. *)
Definition bystander : world :=
  start [("sample.zip", File (stored_build [("note.txt", raw "Hello Maria")]));
         ("keep.txt", File (raw "mine"))].

(** A text that the transform is asked to make unencodable. *)
Definition plain_text : world :=
  start [("unzipped-a.zip", Dir {[ "note.txt" := File (raw "Hello Maria") ]})].

(** * Specification vocabulary *)

(** [Replaced old new s s']: [s'] is [s] with every occurrence of [old]
    replaced by [new], reading [s] from left to right: where [old] occurs,
    [new] is put in its place and reading resumes after the occurrence;
    every other character is kept.  (For an empty [old], which occurs
    everywhere, [new] is put before every character and at the end.) *)
Inductive Replaced (old new : str) : str → str → Prop :=
  | Replaced_end :
      old ≠ [] → Replaced old new [] []
  | Replaced_here s s' :
      old ≠ [] → Replaced old new s s' →
      Replaced old new (old ++ s) (new ++ s')
  | Replaced_keep c s s' :
      old ≠ [] → ¬ old `prefix_of` c :: s → Replaced old new s s' →
      Replaced old new (c :: s) (c :: s')
  | Replaced_everywhere s :
      old = [] → Replaced old new s (new ++ flat_map (λ c, c :: new) s).

(** [old] occurs somewhere in [s]. *)
Definition occurs (old s : str) : Prop := ∃ a b, s = a ++ old ++ b.

(** A member name that extraction uses as it is: one piece, which is not
    empty, ["."] or [".."], and no ["/"]. *)
Definition plain_name (name : string) : Prop :=
  member_path name = [name] ∧ ends_with_slash name = false.



(** A computation and the worlds it relates, whatever its outcome. *)
Definition respects {A} (R : relation world) (m : M A) : Prop :=
  ∀ w r w', m w = (r, w') → R w w'.

(** Only the entry [dir] of the current directory may differ, it does not
    disappear, and [shutil.rmtree] is not called. *)
Definition touches_only (dir : string) (w w' : world) : Prop :=
  (∀ name, name ≠ dir → cwd w' !! name = cwd w !! name) ∧
  (is_Some (cwd w !! dir) → is_Some (cwd w' !! dir)) ∧
  (∀ d, rmtree_calls d w' = rmtree_calls d w) ∧
  zip_members w' = zip_members w.

(** The loop bodies of the transforms: a step that succeeds replaces the
    bytes [b] of the file [name] of [dir] by [f name b]. *)
Definition child_update (dir : string) (f : string → bytes → option bytes)
    (body : string → M unit) : Prop :=
  ∀ name w w', body name w = (Ok (), w') →
    ∃ here b b',
      cwd w !! dir = Some (Dir here) ∧ here !! name = Some (File b) ∧
      f name b = Some b' ∧
      w' = World (<[dir := Dir (<[name := File b']> here)]> (cwd w))
                 (zip_members w) (events w).

(** What the text transform does to the bytes of one file. *)
Definition replace_bytes `{Platform} (old new : str) (b : bytes)
  : option bytes :=
  t ← text_read b; text_write (str_replace t old new).

(** What the image transform does to the bytes of one file. *)
Definition scale_bytes `{PIL} (name : string) (b : bytes) : option bytes :=
  im ← image_decode b;
  match image_encode name (image_resize im (640, 480)%N) with
  | Saved b' => Some b'
  | _ => None
  end.

(** A computation that only reads. *)
Definition reads {A} (m : M A) : Prop := ∀ w, (m w).2 = w.

Definition warned (w : world) : world :=
  World (cwd w) (zip_members w)
        (Printed "WARNING: temp dir already present!" :: events w).

Definition made (dir : string) (w : world) : world :=
  World (<[dir := Dir ∅]> (cwd w)) (zip_members w) (events w).

(** The world after the [try] statement of [unzip_files]. *)
Definition after_mkdir (dir : string) (w : world) : world :=
  match cwd w !! dir with
  | Some _ => warned w
  | None => made dir w
  end.

(** The members that [zip_files] writes for a directory. *)
Definition packed (here : gmap string node) : list member :=
  (λ entry, zip_member entry.1 entry.2) <$> map_to_list here.

(** Every entry of [here] is a regular file, [f] succeeds on it, and [here']
    holds the results under the same names. *)
Definition transformed (f : string → bytes → option bytes)
    (here here' : gmap string node) : Prop :=
  ∀ name,
    match here !! name with
    | Some (File b) => ∃ b', f name b = Some b' ∧ here' !! name = Some (File b')
    | Some (Dir _) => False
    | None => here' !! name = None
    end.

(** The superclass object of [ZipProcessor.py] with the same attributes. *)
Definition as_ZipProcessor (filename temp_directory : string)
  : ZipProcessor_py.ZipProcessor.t :=
  {| ZipProcessor_py.ZipProcessor.filename := filename;
     ZipProcessor_py.ZipProcessor.temp_directory := temp_directory |}.


(** The archive [zip'] holds the members of [zip] under the same names, with
    every occurrence of [old] in their text replaced by [new]. *)
Definition replaced_archive `{Platform} (old new : str)
    (zip zip' : list member) : Prop :=
  zip'.*1 ≡ₚ zip.*1 ∧
  length zip' = length zip ∧
  ∀ name b', (name, b') ∈ zip' →
    ∃ b t t', (name, b) ∈ zip ∧ text_read b = Some t ∧
              Replaced old new t t' ∧ text_write t' = Some b'.

(** The files that extraction makes for members with plain names. *)
Definition extracted (zip : list member) : gmap string node :=
  list_to_map (prod_map id File <$> zip).

(** The exceptions of the text transform on the entries of [dir]. *)
Definition text_failure (dir : string) (e : exn) : Prop :=
  e = UnicodeDecodeError ∨ e = UnicodeEncodeError ∨
  ∃ name, e = IsADirectoryError (child_path dir name).

(** The exception that the image transform raises on the entry [name] of
    [dir], if any: that of [Image.open] on a directory or on a file that
    is not identified or whose format raises, that of the loading of the
    pixels in [resize], or that of [save] for the scaled image. *)
Definition image_entry_error `{PIL} (dir name : string) (n : node)
  : option exn :=
  match n with
  | Dir _ => Some (IsADirectoryError (child_path dir name))
  | File b =>
      match image_identify b with
      | Unidentified => Some (UnidentifiedImageError (child_path dir name))
      | OpenFailed e => Some e
      | Opened f =>
          match image_load f with
          | inl e => Some e
          | inr im =>
              save_error (image_encode name (image_resize im (640, 480)%N))
          end
      end
  end.

(** The exceptions of the image transform on the entries [here] of [dir]:
    the exception of the library call that failed on one of them. *)
Definition image_failure `{PIL} (dir : string) (here : gmap string node)
    (e : exn) : Prop :=
  ∃ name n, here !! name = Some n ∧ image_entry_error dir name n = Some e.

(** The file [b] opens as an image of the size [size]. *)
Definition opens_at `{PIL} (b : bytes) (size : N * N) : Prop :=
  ∃ im, image_decode b = Some im ∧ image_size im = size.

(** The writer of the format of [name] stores an image at the size it is
    given. *)
Definition writer_keeps_size `{PIL} (name : string) : Prop :=
  ∀ im b, image_encode name im = Saved b → opens_at b (image_size im).


(** The loop bodies of the transforms: a step on an entry of [dir] that
    raises, raises one of the exceptions [P]. *)
Definition child_failure (dir : string) (P : exn → Prop)
    (body : string → M unit) : Prop :=
  ∀ name w e w' here,
    cwd w !! dir = Some (Dir here) → is_Some (here !! name) →
    body name w = (Raise e, w') → P e.

(** The directory [here'] has the entries of [here] under the same names:
    the subdirectories as they were, the regular files with some content. *)
Definition same_names (here here' : gmap string node) : Prop :=
  ∀ name,
    match here !! name with
    | None => here' !! name = None
    | Some (Dir d) => here' !! name = Some (Dir d)
    | Some (File _) => ∃ b', here' !! name = Some (File b')
    end.

(** A step that works in place in the directory [dir]: whatever its
    outcome, it leaves the world as it was, or it leaves [dir] with the same
    names and everything else, the printed lines among it, as it was. *)
Definition in_place (dir : string) (w w' : world) : Prop :=
  w' = w ∨
  ∃ here here',
    cwd w !! dir = Some (Dir here) ∧
    w' = World (<[dir := Dir here']> (cwd w)) (zip_members w) (events w) ∧
    same_names here here'.

(** A step that prints nothing and does not call [shutil.rmtree]. *)
Definition quiet (w w' : world) : Prop := events w' = events w.

(** What a run adds to the events: the call of [shutil.rmtree] when it
    succeeds, after the warning when the temporary directory was there. *)
Definition run_events (temp : string) (w : world) (r : outcome ())
  : list event :=
  match r with
  | Ok _ => [Rmtree temp]
  | Raise _ => []
  end ++
  match cwd w !! temp with
  | Some _ => [Printed "WARNING: temp dir already present!"]
  | None => []
  end.

(** * Proofs *)

(** ** The effect monad *)

Lemma bind_run {A B} (m : M A) (f : A → M B) w :
  (m ≫= f) w =
  match m w with
  | (Ok a, w') => f a w'
  | (Raise e, w') => (Raise e, w')
  end.
Proof. reflexivity. Qed.

Lemma bind_ok_inv {A B} (m : M A) (f : A → M B) w b w' :
  (m ≫= f) w = (Ok b, w') →
  ∃ a w1, m w = (Ok a, w1) ∧ f a w1 = (Ok b, w').
Proof.
  rewrite bind_run. destruct (m w) as [[a|e] w1]; [|discriminate].
  intros Hf. by exists a, w1.
Qed.

Lemma bind_raise_inv {A B} (m : M A) (f : A → M B) w e w' :
  (m ≫= f) w = (Raise e, w') →
  m w = (Raise e, w') ∨ ∃ a w1, m w = (Ok a, w1) ∧ f a w1 = (Raise e, w').
Proof.
  rewrite bind_run. destruct (m w) as [[a|e1] w1].
  - intros Hf. right. by exists a, w1.
  - intros [= -> ->]. by left.
Qed.

#[global] Instance touches_only_preorder dir : PreOrder (touches_only dir).
Proof.
  split.
  - by intros w.
  - intros w1 w2 w3 (Ha & Hb & Hc & Hd) (Ha' & Hb' & Hc' & Hd').
    repeat split.
    + intros name Hne. by rewrite Ha', Ha.
    + auto.
    + intros d. by rewrite Hc', Hc.
    + by rewrite Hd', Hd.
Qed.

Section Respects.
Context (R : relation world) `{!PreOrder R}.

Lemma respects_ret {A} (a : A) : respects R (mret a).
Proof. intros w r w' [= <- <-]. reflexivity. Qed.

Lemma respects_raise {A} e : respects R (raise (A:=A) e).
Proof. intros w r w' [= <- <-]. reflexivity. Qed.

Lemma respects_bind {A B} (m : M A) (f : A → M B) :
  respects R m → (∀ a, respects R (f a)) → respects R (m ≫= f).
Proof.
  intros Hm Hf w r w'. rewrite bind_run.
  destruct (m w) as [[a|e] w1] eqn:Em.
  - intros Ef. transitivity w1; [by eapply Hm | by eapply Hf].
  - intros [= <- <-]. by eapply Hm.
Qed.

Lemma respects_for_each {A} (l : list A) (body : A → M unit) :
  (∀ x, respects R (body x)) → respects R (for_each l body).
Proof.
  intros Hbody. induction l as [|x l IH]; simpl.
  - apply respects_ret.
  - apply respects_bind; [apply Hbody | by intros _].
Qed.

Lemma respects_with {X A} (enter : M X) leave (body : X → M A) :
  respects R enter → respects R leave → (∀ x, respects R (body x)) →
  respects R (with_ enter leave body).
Proof.
  intros He Hl Hb w r w'. unfold with_.
  destruct (enter w) as [[x|e] w1] eqn:Ee.
  - destruct (body x w1) as [r2 w2] eqn:Eb.
    destruct (leave w2) as [[[]|e] w3] eqn:El; intros [= <- <-];
      (transitivity w1; [by eapply He|]);
      (transitivity w2; [by eapply Hb | by eapply Hl]).
  - intros [= <- <-]. by eapply He.
Qed.

Lemma respects_try_except {A} (body : M A) handled handler :
  respects R body → respects R handler →
  respects R (try_except body handled handler).
Proof.
  intros Hb Hh w r w'. unfold try_except.
  destruct (body w) as [[a|e] w1] eqn:Eb.
  - intros [= <- <-]. by eapply Hb.
  - destruct (handled e).
    + intros Eh. transitivity w1; [by eapply Hb | by eapply Hh].
    + intros [= <- <-]. by eapply Hb.
Qed.
End Respects.

(** ** What the library calls touch *)

Lemma touches_only_insert dir n w :
  touches_only dir w (World (<[dir := n]> (cwd w)) (zip_members w) (events w)).
Proof.
  repeat split; simpl.
  - intros name Hne. by rewrite lookup_insert_ne.
  - intros _. rewrite lookup_insert_eq. by eexists.
Qed.

Lemma touches_only_printed dir line w :
  touches_only dir w
    (World (cwd w) (zip_members w) (Printed line :: events w)).
Proof.
  by repeat split.
Qed.

Lemma respects_reads {A} (R : relation world) `{!Reflexive R} (m : M A) :
  reads m → respects R m.
Proof. intros Hm w r w' E. specialize (Hm w). rewrite E in Hm. by subst. Qed.

Ltac run_prim :=
  unfold mbind, mret, M_bind, M_ret, raise, get_cwd, set_cwd, modify, emit;
  simpl; repeat case_match; simplify_eq; simpl; try done.

Section LibraryFacts.
Context `{Platform} `{ZipCodec}.

Lemma Path_iterdir_reads dir : reads (Path_iterdir dir).
Proof. intros w. unfold Path_iterdir. run_prim. Qed.

Lemma lookup_child_reads dir name : reads (lookup_child dir name).
Proof. intros w. unfold lookup_child. run_prim. Qed.

Lemma Path_open_reads dir name : reads (Path_open dir name).
Proof.
  intros w. unfold Path_open. rewrite bind_run.
  pose proof (lookup_child_reads dir name w) as E.
  destruct (lookup_child dir name w) as [[[b|d]|e] w1]; simpl in *; by subst.
Qed.

Lemma file_read_reads file : reads (file_read file).
Proof. intros w. unfold file_read. run_prim. Qed.

Lemma close_reads : reads close.
Proof. by intros w. Qed.

Lemma ZipFile_open_reads name : reads (ZipFile_open name).
Proof. intros w. unfold ZipFile_open. run_prim. Qed.

Lemma print_touches dir line : respects (touches_only dir) (print line).
Proof. intros w r w' [= <- <-]. apply touches_only_printed. Qed.

Lemma Path_mkdir_touches dir : respects (touches_only dir) (Path_mkdir dir).
Proof.
  intros w r w'. unfold Path_mkdir. run_prim; intros; simplify_eq;
    [reflexivity | apply touches_only_insert].
Qed.

Lemma store_child_touches dir name data :
  respects (touches_only dir) (store_child dir name data).
Proof.
  intros w r w'. unfold store_child. run_prim; intros; simplify_eq;
    first [reflexivity | apply touches_only_insert].
Qed.

Lemma Path_open_w_touches dir name :
  respects (touches_only dir) (Path_open_w dir name).
Proof.
  apply respects_bind; [apply _ | apply store_child_touches |].
  intros _. apply respects_ret, _.
Qed.

Lemma file_write_touches dir name contents :
  respects (touches_only dir) (file_write (dir, name) contents).
Proof.
  unfold file_write. destruct (text_write contents); simpl.
  - apply store_child_touches.
  - apply respects_raise, _.
Qed.

Lemma ZipFile_extract_touches dir m :
  respects (touches_only dir) (ZipFile_extract dir m).
Proof.
  intros w r w'. unfold ZipFile_extract. run_prim; intros; simplify_eq;
    first [reflexivity | apply touches_only_insert].
Qed.

Lemma ZipFile_extractall_touches zip dir :
  respects (touches_only dir) (ZipFile_extractall zip dir).
Proof.
  apply respects_for_each; [apply _|]. apply ZipFile_extract_touches.
Qed.
End LibraryFacts.

Section ImageFacts.
Context `{PIL}.

Lemma Image_open_reads dir name : reads (Image_open dir name).
Proof.
  intros w. unfold Image_open. rewrite bind_run.
  pose proof (lookup_child_reads dir name w) as E.
  destruct (lookup_child dir name w) as [[[b|d]|e] w1]; simpl in *;
    subst; [|done..].
  by destruct (image_identify b).
Qed.

Lemma Image_resize_reads im size : reads (Image_resize im size).
Proof. intros w. unfold Image_resize. by destruct (image_load im). Qed.

Lemma Image_save_touches im dir name :
  respects (touches_only dir) (Image_save im dir name).
Proof.
  unfold Image_save. destruct (image_encode name im).
  - apply store_child_touches.
  - apply respects_raise, _.
  - apply respects_raise, _.
  - apply respects_bind; [apply _ | apply store_child_touches |].
    intros _. apply respects_raise, _.
Qed.
End ImageFacts.

(** ** The temporary directory and the archive are two names *)

Lemma string_length_app (s1 s2 : string) :
  String.length (s1 +:+ s2) = String.length s1 + String.length s2.
Proof. induction s1 as [|c s1 IH]; simpl; [done | by rewrite IH]. Qed.

Lemma temp_directory_fresh_name (filename : string) :
  filename ≠ "unzipped-" +:+ filename.
Proof.
  intros E. apply (f_equal String.length) in E.
  rewrite string_length_app in E. simpl in E. lia.
Qed.

(** ** The three steps *)

Lemma with_close {X A} (enter : M X) (body : X → M A) w :
  with_ enter close body w = (enter ≫= body) w.
Proof.
  unfold with_. rewrite bind_run.
  destruct (enter w) as [[x|e] w1]; [|done].
  destruct (body x w1) as [r w2]. done.
Qed.

Lemma mkdir_or_warn_run dir w :
  try_except (Path_mkdir dir) is_FileExistsError
    (print "WARNING: temp dir already present!") w
  = (Ok (), after_mkdir dir w).
Proof.
  unfold try_except, Path_mkdir, after_mkdir. rewrite bind_run. simpl.
  by destruct (cwd w !! dir).
Qed.

Lemma after_mkdir_touches dir w : touches_only dir w (after_mkdir dir w).
Proof.
  unfold after_mkdir. destruct (cwd w !! dir) eqn:E.
  - apply touches_only_printed.
  - apply touches_only_insert.
Qed.

Lemma after_mkdir_lookup dir w :
  cwd (after_mkdir dir w) !! dir = Some (default (Dir ∅) (cwd w !! dir)).
Proof.
  unfold after_mkdir. destruct (cwd w !! dir) eqn:E; simpl; [done|].
  by rewrite lookup_insert_eq.
Qed.

Section Steps.
Context `{ZipCodec}.
Import ZipProcessor_py.

Lemma unzip_files_run (self : ZipProcessor.t) w :
  ZipProcessor.filename self ≠ ZipProcessor.temp_directory self →
  ZipProcessor.unzip_files self w =
  let w1 := after_mkdir (ZipProcessor.temp_directory self) w in
  match cwd w !! ZipProcessor.filename self with
  | None => (Raise (FileNotFoundError (ZipProcessor.filename self)), w1)
  | Some (Dir _) =>
      (Raise (IsADirectoryError (ZipProcessor.filename self)), w1)
  | Some (File b) =>
      match zip_parse b with
      | None => (Raise BadZipFile, w1)
      | Some zip =>
          ZipFile_extractall zip (ZipProcessor.temp_directory self) w1
      end
  end.
Proof.
  intros Hne. unfold ZipProcessor.unzip_files.
  rewrite bind_run, mkdir_or_warn_run, with_close, bind_run. simpl.
  destruct (after_mkdir_touches (ZipProcessor.temp_directory self) w)
    as [Hsame _].
  unfold ZipFile_open. rewrite bind_run. simpl. rewrite (Hsame _ Hne).
  destruct (cwd w !! ZipProcessor.filename self) as [[b|d]|]; try done.
  unfold mret, M_ret. by destruct (zip_parse b).
Qed.

Lemma unzip_files_touches (self : ZipProcessor.t) :
  respects (touches_only (ZipProcessor.temp_directory self))
    (ZipProcessor.unzip_files self).
Proof.
  apply respects_bind; [apply _ | |intros _].
  - apply respects_try_except;
      [apply _ | apply Path_mkdir_touches | apply print_touches].
  - apply respects_with; [apply _ | | | ].
    + apply respects_reads; [apply _ | apply ZipFile_open_reads].
    + apply respects_reads; [apply _ | apply close_reads].
    + intros zip. apply ZipFile_extractall_touches.
Qed.

End Steps.

Section Repack.
Context `{ZipCodec}.
Import ZipProcessor_py.

Lemma zip_write_loop dir here (l : list (string * node)) w :
  cwd w !! dir = Some (Dir here) →
  (∀ name n, (name, n) ∈ l → here !! name = Some n) →
  for_each l.*1 (λ name, ZipFile_write dir name name) w =
  (Ok (), World (cwd w)
            (zip_members w ++ ((λ entry, zip_member entry.1 entry.2) <$> l))
            (events w)).
Proof.
  revert w. induction l as [|[name n] l IH]; intros w Hdir Hl; simpl.
  - rewrite app_nil_r. by destruct w.
  - rewrite bind_run. unfold ZipFile_write at 1.
    rewrite bind_run. unfold lookup_child. rewrite bind_run. simpl.
    rewrite Hdir, (Hl name n) by left. simpl.
    rewrite IH; simpl; [by rewrite <- app_assoc | done |].
    intros name' n' Hin. apply Hl. by right.
Qed.

Lemma zip_files_run (self : ZipProcessor.t) w :
  ZipProcessor.filename self ≠ ZipProcessor.temp_directory self →
  ZipProcessor.zip_files self w =
  let filename := ZipProcessor.filename self in
  let temp := ZipProcessor.temp_directory self in
  match cwd w !! filename with
  | Some (Dir _) => (Raise (IsADirectoryError filename), w)
  | _ =>
      match cwd w !! temp with
      | Some (Dir here) =>
          (Ok (),
           World
             (delete temp (<[filename := File (zip_build (packed here))]>
                             (cwd w)))
             (packed here) (Rmtree temp :: events w))
      | Some (File _) =>
          (Raise (NotADirectoryError temp),
           World (<[filename := File (zip_build [])]> (cwd w)) [] (events w))
      | None =>
          (Raise (FileNotFoundError temp),
           World (<[filename := File (zip_build [])]> (cwd w)) [] (events w))
      end
  end.
Proof.
  intros Hne. unfold ZipProcessor.zip_files. rewrite bind_run.
  unfold with_, ZipFile_open_w. rewrite bind_run. simpl.
  set (filename := ZipProcessor.filename self) in *.
  set (temp := ZipProcessor.temp_directory self) in *.
  assert (∀ (d : gmap string node) b,
    <[filename := b]> d !! temp = d !! temp) as Hkeep.
  { intros d b. by rewrite lookup_insert_ne. }
  destruct (cwd w !! filename) as [[b|d]|] eqn:Ef; try done.
  all: unfold modify; rewrite bind_run; unfold Path_iterdir at 1;
    rewrite bind_run; simpl; rewrite Hkeep.
  all: destruct (cwd w !! temp) as [[b'|here]|] eqn:Et; simpl;
    try (by rewrite insert_insert_eq).
  all: unfold mret, M_ret;
    rewrite (zip_write_loop temp here (map_to_list here));
    [ | simpl; by rewrite Hkeep
      | intros name n; apply elem_of_map_to_list ].
  all: simpl; rewrite insert_insert_eq.
  all: unfold shutil_rmtree, emit, modify; rewrite !bind_run; simpl.
  all: by rewrite Hkeep, Et.
Qed.
End Repack.

(** ** The transforms *)

Lemma for_each_child_update dir f body (l : list string) here w w' :
  child_update dir f body →
  NoDup l →
  cwd w !! dir = Some (Dir here) →
  for_each l body w = (Ok (), w') →
  ∃ here',
    w' = World (<[dir := Dir here']> (cwd w)) (zip_members w) (events w) ∧
    (∀ name, name ∉ l → here' !! name = here !! name) ∧
    (∀ name, name ∈ l → ∃ b b',
        here !! name = Some (File b) ∧ f name b = Some b' ∧
        here' !! name = Some (File b')).
Proof.
  intros Hbody. revert here w.
  induction l as [|x l IH]; intros here w Hnodup Hdir; simpl.
  - intros [= <-]. exists here. split_and!.
    + rewrite insert_id by done. by destruct w.
    + done.
    + intros name Hin. by apply elem_of_nil in Hin.
  - intros E. apply bind_ok_inv in E as ([] & w1 & E1 & E2).
    apply Hbody in E1 as (here0 & b & b' & Hdir0 & Hx & Hf & ->).
    rewrite Hdir in Hdir0. injection Hdir0 as <-.
    apply NoDup_cons in Hnodup as [Hx_l Hnodup].
    eapply IH in E2 as (here' & -> & Hout & Hin);
      [ | done | simpl; by rewrite lookup_insert_eq].
    exists here'. simpl. split_and!.
    + by rewrite insert_insert_eq.
    + intros name Hname. apply not_elem_of_cons in Hname as [Hne Hname].
      by rewrite Hout, lookup_insert_ne.
    + intros name Hname. apply elem_of_cons in Hname as [->|Hname].
      * exists b, b'. split_and!; [done..|].
        by rewrite Hout, lookup_insert_eq.
      * destruct (Hin name Hname) as (b0 & b0' & H0 & Hf0 & H0').
        exists b0, b0'. split_and!; [|done..].
        rewrite lookup_insert_ne in H0; [done|]. by intros ->.
Qed.

(** A loop over the entries of [dir] that succeeds has transformed them. *)
Lemma iterdir_child_update dir f body w w' :
  child_update dir f body →
  (names ← Path_iterdir dir; for_each names body) w = (Ok (), w') →
  ∃ here here',
    cwd w !! dir = Some (Dir here) ∧
    w' = World (<[dir := Dir here']> (cwd w)) (zip_members w) (events w) ∧
    transformed f here here'.
Proof.
  intros Hbody E. apply bind_ok_inv in E as (names & w1 & E1 & E2).
  unfold Path_iterdir in E1. rewrite bind_run in E1. simpl in E1.
  destruct (cwd w !! dir) as [[b|here]|] eqn:Hdir; try done.
  injection E1 as <- <-.
  eapply for_each_child_update in E2 as (here' & -> & Hout & Hin);
    [ | done | apply NoDup_fst_map_to_list | done].
  exists here, here'. split_and!; [done..|].
  intros name. destruct (here !! name) as [n|] eqn:Hn.
  - destruct (Hin name) as (b & b' & Hb & Hf & Hb').
    { apply list_elem_of_fmap. exists (name, n).
      split; [done | by apply elem_of_map_to_list]. }
    rewrite Hn in Hb. injection Hb as ->. eauto.
  - rewrite Hout; [done|]. intros Hin'.
    apply list_elem_of_fmap in Hin' as ([name' n] & -> & Hin').
    apply elem_of_map_to_list in Hin'. simpl in Hn. congruence.
Qed.

(** The members that are packed after a transform. *)
Lemma packed_transformed f here here' :
  transformed f here here' →
  (packed here').*1 ≡ₚ (map_to_list here).*1 ∧
  (∀ name b', (name, b') ∈ packed here' →
     ∃ b, here !! name = Some (File b) ∧ f name b = Some b').
Proof.
  intros Ht.
  assert (∀ name n', here' !! name = Some n' →
    ∃ b b', here !! name = Some (File b) ∧ f name b = Some b' ∧ n' = File b')
    as Hfiles.
  { intros name n' Hn'. specialize (Ht name).
    destruct (here !! name) as [[b|d]|]; [|done|congruence].
    destruct Ht as (b' & Hf & Hb'). exists b, b'. split_and!; congruence. }
  assert ((packed here').*1 = (map_to_list here').*1) as ->.
  { unfold packed. rewrite <- list_fmap_compose.
    apply Forall_fmap_ext_1, Forall_forall. intros [name n'] Hin. simpl.
    apply elem_of_map_to_list, Hfiles in Hin as (b & b' & _ & _ & ->).
    done. }
  split.
  - apply NoDup_Permutation; [apply NoDup_fst_map_to_list..|].
    intros name. rewrite !list_elem_of_fmap. split.
    + intros ([name' n'] & -> & Hin). apply elem_of_map_to_list in Hin.
      apply Hfiles in Hin as (b & _ & Hb & _).
      exists (name', File b). split; [done|]. by apply elem_of_map_to_list.
    + intros ([name' n] & -> & Hin). apply elem_of_map_to_list in Hin.
      specialize (Ht name'). simpl in *. rewrite Hin in Ht.
      destruct n as [b|d]; [|done]. destruct Ht as (b' & _ & Hb').
      exists (name', File b'). split; [done|]. by apply elem_of_map_to_list.
  - intros name b' Hin. unfold packed in Hin.
    apply list_elem_of_fmap in Hin as ([name' n'] & Heq & Hin).
    apply elem_of_map_to_list, Hfiles in Hin as (b & b0 & Hb & Hf & ->).
    simpl in Heq. injection Heq as -> ->. eauto.
Qed.

Section Bodies.
Context `{Platform}.

Lemma lookup_child_ok dir name w n w' :
  lookup_child dir name w = (Ok n, w') →
  w' = w ∧ ∃ here, cwd w !! dir = Some (Dir here) ∧ here !! name = Some n.
Proof.
  unfold lookup_child. rewrite bind_run. simpl.
  destruct (cwd w !! dir) as [[b|here]|]; try done.
  destruct (here !! name) as [n'|] eqn:Hn; try done.
  intros [= <- <-]. eauto.
Qed.

Lemma Path_open_ok dir name w b w' :
  Path_open dir name w = (Ok b, w') →
  w' = w ∧
  ∃ here, cwd w !! dir = Some (Dir here) ∧ here !! name = Some (File b).
Proof.
  intros E. apply bind_ok_inv in E as (n & w1 & E1 & E2).
  apply lookup_child_ok in E1 as (-> & here & Hdir & Hn).
  destruct n as [b0|d]; [|done]. injection E2 as <- <-. eauto.
Qed.

Lemma store_child_ok dir name data w w' :
  store_child dir name data w = (Ok (), w') →
  ∃ here, cwd w !! dir = Some (Dir here) ∧
    w' = World (<[dir := Dir (<[name := File data]> here)]> (cwd w))
               (zip_members w) (events w).
Proof.
  unfold store_child. rewrite bind_run. simpl.
  destruct (cwd w !! dir) as [[b|here]|]; try done.
  destruct (here !! name) as [[b|d]|]; try done;
    intros [= <-]; eauto.
Qed.

Lemma file_read_ok file w s w' :
  file_read file w = (Ok s, w') → w' = w ∧ text_read file = Some s.
Proof.
  unfold file_read. destruct (text_read file); [|done].
  by intros [= <- <-].
Qed.

Lemma text_body_child_update dir old new :
  child_update dir (λ _, replace_bytes old new) (λ filename,
    contents ← with_ (Path_open dir filename) close
      (λ file,
        contents ← file_read file;
        mret (str_replace contents old new));
    with_ (Path_open_w dir filename) close (λ file,
      file_write file contents)).
Proof.
  intros name w w' E.
  apply bind_ok_inv in E as (contents & w1 & E1 & E2).
  rewrite with_close in E1. rewrite with_close in E2.
  apply bind_ok_inv in E1 as (file & w2 & E1 & E3).
  apply Path_open_ok in E1 as (-> & here & Hdir & Hname).
  apply bind_ok_inv in E3 as (t & w3 & E3 & E4).
  apply file_read_ok in E3 as (-> & Ht). injection E4 as <- <-.
  apply bind_ok_inv in E2 as ([dir' name'] & w4 & E2 & E5).
  apply bind_ok_inv in E2 as ([] & w5 & E2 & E6).
  injection E6 as <- <- <-.
  apply store_child_ok in E2 as (here0 & Hdir0 & ->).
  rewrite Hdir in Hdir0. injection Hdir0 as <-.
  unfold file_write in E5. simpl in E5.
  destruct (text_write (str_replace t old new)) as [b'|] eqn:Hw; [|done].
  apply store_child_ok in E5 as (here1 & Hdir1 & ->). simpl in *.
  rewrite lookup_insert_eq in Hdir1. injection Hdir1 as <-.
  exists here, file, b'. split_and!; [done..| |].
  - unfold replace_bytes. by rewrite Ht.
  - by rewrite !insert_insert_eq.
Qed.

Lemma open_w_write dir name contents w :
  with_ (Path_open_w dir name) close (λ file, file_write file contents) w
  = (store_child dir name [] ;; file_write (dir, name) contents) w.
Proof.
  rewrite with_close. unfold Path_open_w. rewrite !bind_run.
  by destruct (store_child dir name [] w) as [[[]|e] w1].
Qed.

Lemma open_read_reads dir name (f : str → str) :
  reads (with_ (Path_open dir name) close
           (λ file, contents ← file_read file; mret (f contents))).
Proof.
  intros w. rewrite with_close, bind_run.
  pose proof (Path_open_reads dir name w) as E.
  destruct (Path_open dir name w) as [[b|e] w1]; simpl in *; subst;
    [|done].
  rewrite bind_run. pose proof (file_read_reads b w) as E.
  by destruct (file_read b w) as [[s|e] w1].
Qed.

Lemma text_body_touches dir old new filename :
  respects (touches_only dir)
    (contents ← with_ (Path_open dir filename) close
       (λ file,
         contents ← file_read file;
         mret (str_replace contents old new));
     with_ (Path_open_w dir filename) close (λ file,
       file_write file contents)).
Proof.
  apply respects_bind; [apply _ | |intros contents].
  - apply respects_reads; [apply _|].
    apply (open_read_reads dir filename (λ c, str_replace c old new)).
  - intros w r w'. rewrite open_w_write. revert w r w'.
    apply respects_bind; [apply _ | apply store_child_touches |].
    intros _. apply file_write_touches.
Qed.
End Bodies.

Section ImageBodies.
Context `{PIL}.

Lemma image_body_child_update dir :
  child_update dir scale_bytes (λ filename,
    im ← Image_open dir filename;
    scaled ← Image_resize im (640, 480)%N;
    Image_save scaled dir filename).
Proof.
  intros name w w' E. apply bind_ok_inv in E as (f & w1 & E1 & E2).
  apply bind_ok_inv in E1 as (n & w2 & E1 & E3).
  apply lookup_child_ok in E1 as (-> & here & Hdir & Hname).
  destruct n as [b|d]; [|done].
  destruct (image_identify b) as [f'| |e] eqn:Hid; [|done..].
  injection E3 as <- <-.
  apply bind_ok_inv in E2 as (scaled & w3 & E2 & E4).
  unfold Image_resize in E2.
  destruct (image_load f') as [e|im] eqn:Hload; [done|].
  injection E2 as <- <-. unfold Image_save in E4.
  destruct (image_encode name (image_resize im (640, 480)%N))
    as [b'|ext|format|e partial] eqn:Henc; [|done..|].
  - apply store_child_ok in E4 as (here0 & Hdir0 & ->).
    rewrite Hdir in Hdir0. injection Hdir0 as <-.
    exists here, b, b'. split_and!; [done..| |done].
    unfold scale_bytes, image_decode. rewrite Hid, Hload. simpl.
    by rewrite Henc.
  - rewrite bind_run in E4.
    by destruct (store_child dir name partial _) as [[[]|e'] w4].
Qed.

Lemma image_body_touches dir filename :
  respects (touches_only dir)
    (im ← Image_open dir filename;
     scaled ← Image_resize im (640, 480)%N;
     Image_save scaled dir filename).
Proof.
  apply respects_bind; [apply _ | |intros im].
  - apply respects_reads; [apply _ | apply Image_open_reads].
  - apply respects_bind; [apply _ | |intros scaled].
    + apply respects_reads; [apply _ | apply Image_resize_reads].
    + apply Image_save_touches.
Qed.
End ImageBodies.

(** ** [str.replace] *)

Lemma starts_with_prefix old s : starts_with old s = true ↔ old `prefix_of` s.
Proof.
  revert s. induction old as [|a old IH]; intros s; simpl.
  - split; [intros _; apply prefix_nil | done].
  - destruct s as [|b s].
    + split; [done | intros Hp; by apply prefix_nil_not in Hp].
    + rewrite andb_true_iff, bool_decide_eq_true, IH. split.
      * intros [-> Hp]. by apply prefix_cons.
      * intros Hp. split; [by eapply prefix_cons_inv_1 |
                            by eapply prefix_cons_inv_2].
Qed.

Lemma replace_scan_skip old new k s :
  replace_scan old new k s = replace_scan old new 0 (drop k s).
Proof.
  revert k. induction s as [|c s IH]; intros [|k]; simpl; auto.
Qed.

Lemma replace_scan_here old new s :
  old ≠ [] →
  replace_scan old new 0 (old ++ s) = new ++ replace_scan old new 0 s.
Proof.
  destruct old as [|a old]; [done|]. intros _.
  change ((a :: old) ++ s) with (a :: (old ++ s)).
  cbn [replace_scan].
  assert (starts_with (a :: old) (a :: old ++ s) = true) as ->.
  { apply starts_with_prefix. by exists s. }
  rewrite replace_scan_skip. simpl. rewrite Nat.sub_0_r.
  by rewrite drop_app_length.
Qed.

Lemma replace_scan_keep old new c s :
  ¬ old `prefix_of` c :: s →
  replace_scan old new 0 (c :: s) = c :: replace_scan old new 0 s.
Proof.
  intros Hp. cbn [replace_scan].
  destruct (starts_with old (c :: s)) eqn:E; [|done].
  by apply starts_with_prefix in E.
Qed.

(** [str.replace] computes the replacement of every occurrence. *)
Lemma str_replace_Replaced s old new :
  Replaced old new s (str_replace s old new).
Proof.
  destruct old as [|a old]; [by apply Replaced_everywhere|].
  unfold str_replace. set (o := a :: old). assert (o ≠ []) as Ho by done.
  clearbody o. clear a old.
  cut (∀ n s, length s ≤ n → Replaced o new s (replace_scan o new 0 s)).
  { intros Hall. by apply (Hall (length s)). }
  clear s. induction n as [|n IH]; intros [|c s] Hlen;
    try (by apply Replaced_end); simpl in Hlen; [lia|].
  destruct (decide (o `prefix_of` c :: s)) as [[b Hb]|Hno].
  - rewrite Hb, replace_scan_here by done.
    apply Replaced_here; [done|]. apply IH.
    apply (f_equal length) in Hb. rewrite length_app in Hb.
    destruct o; [done|]. simpl in Hb. lia.
  - rewrite replace_scan_keep by done.
    apply Replaced_keep; [done..|]. apply IH. lia.
Qed.

(** The replacement is determined: it is the result of [str.replace]. *)
Lemma Replaced_str_replace old new s s' :
  Replaced old new s s' → s' = str_replace s old new.
Proof.
  induction 1 as [Ho|s s' Ho _ IH|c s s' Ho Hp _ IH|s Ho].
  - by destruct old.
  - destruct old as [|a old]; [done|]. unfold str_replace in *.
    by rewrite replace_scan_here, IH.
  - destruct old as [|a old]; [done|]. unfold str_replace in *.
    by rewrite replace_scan_keep, IH.
  - by subst.
Qed.

(** Replacing a string by itself changes nothing. *)
Lemma str_replace_same s old : str_replace s old old = s.
Proof.
  destruct old as [|a old]; simpl.
  - unfold replace_empty. simpl. induction s as [|c s IH]; simpl; congruence.
  - set (o := a :: old). assert (o ≠ []) as Ho by done.
    clearbody o. clear a old.
    cut (∀ n s, length s ≤ n → replace_scan o o 0 s = s).
    { intros Hall. by apply (Hall (length s)). }
    clear s. induction n as [|n IH]; intros [|c s] Hlen;
      try done; simpl in Hlen; [lia|].
    destruct (decide (o `prefix_of` c :: s)) as [[b Hb]|Hno].
    + rewrite Hb, replace_scan_here by done. f_equal. apply IH.
      apply (f_equal length) in Hb. rewrite length_app in Hb.
      destruct o; [done|]. simpl in Hb. lia.
    + rewrite replace_scan_keep by done. f_equal. apply IH. lia.
Qed.

(** A string in which [old] does not occur is left as it is. *)
Lemma str_replace_absent s old new :
  ¬ occurs old s → str_replace s old new = s.
Proof.
  destruct old as [|a old].
  { intros Hno. destruct Hno. by exists [], s. }
  unfold str_replace. set (o := a :: old). clearbody o. clear a old.
  induction s as [|c s IH]; intros Hno; [done|].
  rewrite replace_scan_keep.
  - f_equal. apply IH. intros (x & y & ->). apply Hno.
    by exists (c :: x), y.
  - intros [b Hb]. apply Hno. by exists [], b.
Qed.

Lemma replace_empty_length new s :
  length (replace_empty new s) = length s + S (length s) * length new.
Proof.
  unfold replace_empty. rewrite length_app.
  induction s as [|c s IH]; simpl; [lia|].
  rewrite length_app in *. lia.
Qed.

(** ** The library model on small inputs *)

Example str_replace_word :
  str_replace (py "Hello Maria") (py "Maria") (py "Mario") = py "Hello Mario".
Proof. reflexivity. Qed.

Example str_replace_no_overlap :
  str_replace (py "aaa") (py "aa") (py "b") = py "ba".
Proof. reflexivity. Qed.

Example str_replace_not_again :
  str_replace (py "abab") (py "ab") (py "abab") = py "abababab".
Proof. reflexivity. Qed.

Example str_replace_empty_old :
  str_replace (py "abc") [] (py "-") = py "-a-b-c-" ∧
  str_replace [] [] (py "x") = py "x".
Proof. by split. Qed.

Example universal_newlines_all_kinds :
  universal_newlines (py "a" ++ [CR; LF] ++ py "b" ++ [CR] ++ py "c" ++ [LF])
  = py "a" ++ [LF] ++ py "b" ++ [LF] ++ py "c" ++ [LF].
Proof. reflexivity. Qed.

Example utf8_decode_valid :
  utf8_decode [x41; xc3; xa9; xe2; x82; xac; xf0; x9f; x98; x80]
  = Some [0x41; 0xE9; 0x20AC; 0x1F600]%N.
Proof. by vm_compute. Qed.

Example utf8_decode_invalid :
  utf8_decode [xff] = None ∧ utf8_decode [xc0; x80] = None ∧
  utf8_decode [xed; xa0; x80] = None ∧ utf8_decode [xc3] = None.
Proof. by vm_compute. Qed.

Example utf8_encode_back :
  utf8_encode [0x41; 0xE9; 0x20AC; 0x1F600]%N
  = Some [x41; xc3; xa9; xe2; x82; xac; xf0; x9f; x98; x80].
Proof. by vm_compute. Qed.

Example member_path_cleaned :
  member_path "note.txt" = ["note.txt"] ∧
  member_path "d/a.txt" = ["d"; "a.txt"] ∧
  member_path "./a//b/../c.txt" = ["a"; "b"; "c.txt"] ∧
  member_path "d/" = ["d"].
Proof. by vm_compute. Qed.

Example stored_round_trip :
  stored_parse (stored_build [("note.txt", raw "Hello Maria"); ("d/", [])])
  = Some [("note.txt", raw "Hello Maria"); ("d/", [])].
Proof. by vm_compute. Qed.

(** ** The pipeline: unzip, process, zip *)

Section Pipeline.
Context `{ZipCodec}.
Import ZipProcessor_py.


(** A run that succeeds went through the three steps. *)
Lemma pipeline_ok_inv (base : ZipProcessor.t) (process : M unit) w w' :
  ZipProcessor.filename base ≠ ZipProcessor.temp_directory base →
  (ZipProcessor.unzip_files base ;; process ;; ZipProcessor.zip_files base) w
    = (Ok (), w') →
  ∃ w1 w2 here,
    ZipProcessor.unzip_files base w = (Ok (), w1) ∧
    process w1 = (Ok (), w2) ∧
    cwd w2 !! ZipProcessor.temp_directory base = Some (Dir here) ∧
    w' = World
           (delete (ZipProcessor.temp_directory base)
              (<[ZipProcessor.filename base :=
                   File (zip_build (packed here))]> (cwd w2)))
           (packed here)
           (Rmtree (ZipProcessor.temp_directory base) :: events w2).
Proof.
  intros Hne E. apply bind_ok_inv in E as ([] & w1 & E1 & E).
  apply bind_ok_inv in E as ([] & w2 & E2 & E3).
  exists w1, w2. rewrite zip_files_run in E3 by done. simpl in E3.
  destruct (cwd w2 !! ZipProcessor.filename base) as [[b|d]|];
    destruct (cwd w2 !! ZipProcessor.temp_directory base) as [[b'|here]|];
    try done; injection E3 as <-; by exists here.
Qed.


(** The archive is as it was until [zip_files] starts. *)
Lemma pipeline_archive_kept (base : ZipProcessor.t) (process : M unit)
    w r w' :
  ZipProcessor.filename base ≠ ZipProcessor.temp_directory base →
  respects (touches_only (ZipProcessor.temp_directory base)) process →
  (ZipProcessor.unzip_files base ;; process) w = (r, w') →
  cwd w' !! ZipProcessor.filename base = cwd w !! ZipProcessor.filename base.
Proof.
  intros Hne Hprocess E.
  assert (respects (touches_only (ZipProcessor.temp_directory base))
            (ZipProcessor.unzip_files base ;; process)) as Hboth.
  { apply respects_bind; [apply _ | apply unzip_files_touches | done]. }
  destruct (Hboth _ _ _ E) as [Hsame _]. by apply Hsame.
Qed.
End Pipeline.

(** ** The four scripts share their steps *)

Section Same.
Context `{Platform} `{ZipCodec} `{PIL}.

Lemma ZipReplace_py_same (self : ZipReplace_py.ZipReplace.t) :
  ZipReplace_py.ZipReplace.zip_find_replace self =
  (ZipProcessor_py.ZipProcessor.unzip_files
     (as_ZipProcessor (ZipReplace_py.ZipReplace.filename self)
        (ZipReplace_py.ZipReplace.temp_directory self)) ;;
   ZipReplace_py.ZipReplace.find_replace self ;;
   ZipProcessor_py.ZipProcessor.zip_files
     (as_ZipProcessor (ZipReplace_py.ZipReplace.filename self)
        (ZipReplace_py.ZipReplace.temp_directory self))).
Proof. reflexivity. Qed.

Lemma find_replace_same filename old new :
  ZipReplace_py.ZipReplace.find_replace
    (ZipReplace_py.ZipReplace.__init__ filename old new) =
  ZipProcessor_py.ZipReplace.process_files
    (ZipProcessor_py.ZipReplace.__init__ filename old new).
Proof. reflexivity. Qed.


Lemma Composition_same {P} `{ZipProcessorComposition_py.ZipProcessor.Processor P}
    (self : ZipProcessorComposition_py.ZipProcessor.t P) :
  ZipProcessorComposition_py.ZipProcessor.process_zip self =
  (ZipProcessor_py.ZipProcessor.unzip_files
     (as_ZipProcessor (ZipProcessorComposition_py.ZipProcessor.filename self)
        (ZipProcessorComposition_py.ZipProcessor.temp_directory self)) ;;
   ZipProcessorComposition_py.ZipProcessor.processor_process_files
     (ZipProcessorComposition_py.ZipProcessor.processor self) self ;;
   ZipProcessor_py.ZipProcessor.zip_files
     (as_ZipProcessor (ZipProcessorComposition_py.ZipProcessor.filename self)
        (ZipProcessorComposition_py.ZipProcessor.temp_directory self))).
Proof. reflexivity. Qed.

Lemma Composition_ScaleZip_same filename :
  ZipProcessorComposition_py.ScaleZip.process_files
    ZipProcessorComposition_py.ScaleZip.__init__
    (ZipProcessorComposition_py.ZipProcessor.__init__
       ZipProcessorComposition_py.ScaleZip.__init__ filename) =
  ScaleZip_py.ScaleZip.process_files (ScaleZip_py.ScaleZip.__init__ filename).
Proof. reflexivity. Qed.

(** *** The text transform *)

Lemma process_files_ok (self : ZipProcessor_py.ZipReplace.t) w w' :
  ZipProcessor_py.ZipReplace.process_files self w = (Ok (), w') →
  ∃ here here',
    cwd w !! ZipProcessor_py.ZipReplace.temp_directory self
      = Some (Dir here) ∧
    w' = World
           (<[ZipProcessor_py.ZipReplace.temp_directory self := Dir here']>
              (cwd w))
           (zip_members w) (events w) ∧
    transformed
      (λ _, replace_bytes (ZipProcessor_py.ZipReplace.search_string self)
              (ZipProcessor_py.ZipReplace.replace_string self))
      here here'.
Proof.
  intros E. eapply iterdir_child_update; [|exact E].
  apply text_body_child_update.
Qed.

Lemma process_files_touches (self : ZipProcessor_py.ZipReplace.t) :
  respects (touches_only (ZipProcessor_py.ZipReplace.temp_directory self))
    (ZipProcessor_py.ZipReplace.process_files self).
Proof.
  apply respects_bind; [apply _ | |intros names].
  - apply respects_reads; [apply _ | apply Path_iterdir_reads].
  - apply respects_for_each; [apply _|]. intros filename.
    apply text_body_touches.
Qed.

(** *** The image transform *)

Lemma scale_files_ok (self : ScaleZip_py.ScaleZip.t) w w' :
  ScaleZip_py.ScaleZip.process_files self w = (Ok (), w') →
  ∃ here here',
    cwd w !! ScaleZip_py.ScaleZip.temp_directory self = Some (Dir here) ∧
    w' = World
           (<[ScaleZip_py.ScaleZip.temp_directory self := Dir here']> (cwd w))
           (zip_members w) (events w) ∧
    transformed scale_bytes here here'.
Proof.
  intros E. eapply iterdir_child_update; [|exact E].
  apply image_body_child_update.
Qed.

Lemma scale_files_touches (self : ScaleZip_py.ScaleZip.t) :
  respects (touches_only (ScaleZip_py.ScaleZip.temp_directory self))
    (ScaleZip_py.ScaleZip.process_files self).
Proof.
  apply respects_bind; [apply _ | |intros names].
  - apply respects_reads; [apply _ | apply Path_iterdir_reads].
  - apply respects_for_each; [apply _|]. intros filename.
    apply image_body_touches.
Qed.
End Same.

(** * The claims of the specification *)

(** ** C1: the ways out of [process_zip] and the temporary directory *)





(** ** C2: [unzip_files] on a path that is not an archive *)





(** ** C3: what a run of the text transform does to an archive *)

Lemma ZipFile_extract_plain `{ZipCodec} dir name data here w :
  plain_name name →
  cwd w !! dir = Some (Dir here) →
  here !! name = None →
  ZipFile_extract dir (name, data) w =
  (Ok (), World (<[dir := Dir (<[name := File data]> here)]> (cwd w))
            (zip_members w) (events w)).
Proof.
  intros [Hpath Hslash] Hdir Hfree. unfold ZipFile_extract. simpl.
  rewrite Hpath, Hslash. simpl. rewrite bind_run. simpl.
  by rewrite Hdir, Hfree.
Qed.

Lemma ZipFile_extractall_plain `{ZipCodec} dir (zip : list member) here w :
  Forall plain_name zip.*1 →
  NoDup zip.*1 →
  cwd w !! dir = Some (Dir here) →
  (∀ name, name ∈ zip.*1 → here !! name = None) →
  ZipFile_extractall zip dir w =
  (Ok (), World (<[dir := Dir (extracted zip ∪ here)]> (cwd w))
            (zip_members w) (events w)).
Proof.
  unfold ZipFile_extractall, extracted. revert here w.
  induction zip as [|[name data] zip IH];
    intros here w Hplain Hnodup Hdir Hfree.
  - simpl. rewrite (left_id_L ∅ (∪)), insert_id by done. by destruct w.
  - simpl in *. apply Forall_cons in Hplain as [Hname Hplain].
    apply NoDup_cons in Hnodup as [Hnew Hnodup].
    rewrite bind_run, (ZipFile_extract_plain dir name data here) by
      (try done; apply Hfree; left).
    rewrite (IH (<[name := File data]> here)); simpl; [|done..| |].
    + rewrite insert_insert_eq. do 3 f_equal.
      rewrite <- insert_union_r, insert_union_l; [done|].
      apply not_elem_of_list_to_map_1.
      by rewrite <- list_fmap_compose.
    + by rewrite lookup_insert_eq.
    + intros name' Hin. rewrite lookup_insert_ne.
      * apply Hfree. by right.
      * by intros ->.
Qed.

Lemma extracted_entries (zip : list member) :
  NoDup zip.*1 →
  (map_to_list (extracted zip)).*1 ≡ₚ zip.*1 ∧
  ∀ name b, extracted zip !! name = Some (File b) → (name, b) ∈ zip.
Proof.
  intros Hnodup. unfold extracted.
  assert ((prod_map id File <$> zip).*1 = zip.*1) as Hnames.
  { rewrite <- list_fmap_compose. by apply list_fmap_ext; intros ? []. }
  split.
  - rewrite map_to_list_to_map by by rewrite Hnames. by rewrite Hnames.
  - intros name b Hb. apply elem_of_list_to_map in Hb; [|by rewrite Hnames].
    apply list_elem_of_fmap in Hb as ([name' b'] & [= -> ->] & Hin). done.
Qed.




(** C3 (as the scripts have it).  Take an archive whose member names are
    plain (no directories) and distinct, and a current directory in which
    the temporary directory does not exist yet.  After a successful run of
    the text transform, of [ZipProcessor.py] or of [ZipReplace.py], the
    archive holds members with the same names, as many as before, and every
    member is the text-mode writing of its text with every occurrence of
    the search string replaced by the replace string. *)
Theorem text_replace_run `{Platform} `{ZipCodec}
    (filename : string) (search replace : str) (a : bytes)
    (zip : list member) (w w' : world) :
  cwd w !! ("unzipped-" +:+ filename) = None →
  cwd w !! filename = Some (File a) →
  zip_parse a = Some zip →
  Forall plain_name zip.*1 →
  NoDup zip.*1 →
  ZipProcessor_py.ZipProcessor.process_zip
    (ZipProcessor_py.ZipReplace.__init__ filename search replace) w
    = (Ok (), w') ∨
  ZipReplace_py.ZipReplace.zip_find_replace
    (ZipReplace_py.ZipReplace.__init__ filename search replace) w
    = (Ok (), w') →
  ∃ zip',
    cwd w' !! filename = Some (File (zip_build zip')) ∧
    replaced_archive search replace zip zip'.
Proof.
  intros Hfresh Ha Hzip Hplain Hnodup Hrun.
  set (temp := "unzipped-" +:+ filename) in *.
  pose proof (temp_directory_fresh_name filename) as Hne. fold temp in Hne.
  assert ((ZipProcessor_py.ZipProcessor.unzip_files
             (ZipProcessor_py.ZipProcessor.__init__ filename) ;;
           ZipProcessor_py.ZipReplace.process_files
             (ZipProcessor_py.ZipReplace.__init__ filename search replace) ;;
           ZipProcessor_py.ZipProcessor.zip_files
             (ZipProcessor_py.ZipProcessor.__init__ filename)) w
          = (Ok (), w')) as E by by destruct Hrun.
  clear Hrun.
  apply pipeline_ok_inv in E as (w1 & w2 & here2 & E1 & E2 & Hhere2 & ->);
    [|done].
  rewrite unzip_files_run in E1 by done. simpl in E1. fold temp in E1.
  rewrite Ha, Hzip in E1.
  assert (after_mkdir temp w = made temp w) as Hmade.
  { unfold after_mkdir. by rewrite Hfresh. }
  rewrite Hmade in E1.
  rewrite (ZipFile_extractall_plain temp zip ∅) in E1;
    [ | done.. | simpl; by rewrite lookup_insert_eq | done].
  injection E1 as <-. rewrite (right_id_L ∅ (∪)) in E2.
  apply process_files_ok in E2 as (here & here' & Hhere & -> & Htrans).
  simpl in Hhere, Hhere2, Htrans. fold temp in Hhere, Hhere2.
  rewrite lookup_insert_eq in Hhere, Hhere2.
  injection Hhere as <-. injection Hhere2 as <-.
  destruct (packed_transformed _ _ _ Htrans) as [Hnames Hmembers].
  destruct (extracted_entries zip Hnodup) as [Hkeys Hfiles].
  exists (packed here'). simpl. split; [|split_and!].
  - rewrite lookup_delete_ne by done. by rewrite lookup_insert_eq.
  - by rewrite Hnames.
  - apply Permutation_length in Hnames, Hkeys.
    rewrite !length_fmap in Hnames, Hkeys. by etrans.
  - intros name b' Hin. apply Hmembers in Hin as (b & Hb & Hbytes).
    unfold replace_bytes in Hbytes.
    destruct (text_read b) as [t|] eqn:Ht; [|done]. simpl in Hbytes.
    exists b, t, (str_replace t search replace). split_and!; [|done| |done].
    + by apply Hfiles.
    + apply str_replace_Replaced.
Qed.

Lemma text_replace_run_witness :
  let w := start [("sample.zip",
                   File (stored_build [("note.txt", raw "Hello Maria")]))] in
  let run :=
    @ZipProcessor_py.ZipProcessor.process_zip stored _
      (@ZipProcessor_py.ZipReplace.derived posix_utf8)
      (ZipProcessor_py.ZipReplace.__init__ "sample.zip"
         (py "Maria") (py "Mario")) w in
  ∃ zip',
    cwd run.2 !! "sample.zip" = Some (File (stored_build zip')) ∧
    @replaced_archive posix_utf8 (py "Maria") (py "Mario")
      [("note.txt", raw "Hello Maria")] zip'.
Proof.
  intros w run.
  apply (@text_replace_run posix_utf8 stored "sample.zip"
           (py "Maria") (py "Mario")
           (stored_build [("note.txt", raw "Hello Maria")])
           [("note.txt", raw "Hello Maria")] w run.2).
  - by vm_compute.
  - by vm_compute.
  - by vm_compute.
  - repeat constructor.
  - repeat constructor. by intros Hin%elem_of_nil.
  - left. by vm_compute.
Defined.

(** The scenario of the specification: [note.txt] holds ["Hello Mario"]
    after the run, and is still the only member. *)
Example text_replace_sample :
  let run :=
    @ZipProcessor_py.ZipProcessor.process_zip stored _
      (@ZipProcessor_py.ZipReplace.derived posix_utf8)
      (ZipProcessor_py.ZipReplace.__init__ "sample.zip"
         (py "Maria") (py "Mario"))
      (start [("sample.zip",
               File (stored_build [("note.txt", raw "Hello Maria")]))]) in
  run.1 = Ok () ∧
  stored_archive run.2 "sample.zip" = Some [("note.txt", raw "Hello Mario")].
Proof. by vm_compute. Qed.

(** C3 fails for "every archive": the names and the number of members can
    change.  When the temporary directory is already there (the scripts
    warn and go on), the files left in it are processed and packed too; and
    members with the same name, or names that extraction cleans, do not come
    back as they were. *)
Lemma text_replace_run_changes_members :
  let run files :=
    @ZipProcessor_py.ZipProcessor.process_zip stored _
      (@ZipProcessor_py.ZipReplace.derived posix_utf8)
      (ZipProcessor_py.ZipReplace.__init__ "sample.zip"
         (py "Maria") (py "Mario")) (start files) in
  let stale :=
    run [("sample.zip", File (stored_build [("note.txt", raw "Hello Maria")]));
         ("unzipped-sample.zip", Dir {[ "old.txt" := File (raw "Maria") ]})] in
  let twice :=
    run [("sample.zip",
          File (stored_build [("a.txt", raw "one"); ("a.txt", raw "two");
                              ("./b.txt", raw "x")]))] in
  stale.1 = Ok () ∧
  stored_archive stale.2 "sample.zip"
    = Some [("old.txt", raw "Mario"); ("note.txt", raw "Hello Mario")] ∧
  twice.1 = Ok () ∧
  stored_archive twice.2 "sample.zip"
    = Some [("a.txt", raw "two"); ("b.txt", raw "x")].
Proof. by vm_compute. Qed.


(** ** C4: what a run of the image transform does to an archive *)

Lemma take_unary_unary n rest : take_unary (unary n ++ rest) = Some (n, rest).
Proof.
  unfold unary. induction n as [|n IH]; simpl; [done|]. by rewrite IH.
Qed.

Lemma blank_header_file (size : N * N) :
  blank_header (blank_file size) = Some size.
Proof.
  destruct size as [w h]. unfold blank_header, blank_file. cbn [fst snd].
  rewrite take_unary_unary. cbn [mbind option_bind].
  rewrite <- (app_nil_r (unary (N.to_nat h))), take_unary_unary. simpl.
  by rewrite !N2Nat.id.
Qed.

Lemma blank_keeps_size name : @writer_keeps_size blank name.
Proof.
  intros [size []] b. simpl. destruct (has_extension name); [|done].
  intros [= <-]. exists (size, ()). split; [|done].
  unfold image_decode. simpl. by rewrite blank_header_file.
Qed.

(** C4 (as the scripts have it).  After a successful run of the image
    transform, of [ScaleZip.py] or of [ZipProcessorComposition.py], the
    archive holds one member for every entry of the directory that
    [unzip_files] made, under its name, and that entry was an image.  The
    member is what [save] wrote, under that name, for the image of the
    entry resized to 640 by 480: the image that is saved has exactly that
    size whatever the size and the aspect ratio of the entry's image, for
    the size is the constant handed to [resize] (stretch to fit).  The
    member opens again at 640 by 480 when the writer of its format stores
    an image at the size it is given.  For an archive with plain and
    distinct member names and no temporary directory in the way, the
    entries are the members of the archive: the names are the same, as
    many as before. *)
Theorem scale_run_sizes `{ZipCodec} `{PIL}
    (filename : string) (w w' : world) :
  let temp := "unzipped-" +:+ filename in
  ScaleZip_py.ZipProcessor.process_zip
    (ScaleZip_py.ScaleZip.__init__ filename) w = (Ok (), w') ∨
  ZipProcessorComposition_py.ZipProcessor.process_zip
    (ZipProcessorComposition_py.ZipProcessor.__init__
       ZipProcessorComposition_py.ScaleZip.__init__ filename) w
    = (Ok (), w') →
  ∃ w1 here zip',
    ScaleZip_py.ZipProcessor.unzip_files
      (ScaleZip_py.ZipProcessor.__init__ filename) w = (Ok (), w1) ∧
    cwd w1 !! temp = Some (Dir here) ∧
    cwd w' !! filename = Some (File (zip_build zip')) ∧
    zip'.*1 ≡ₚ (map_to_list here).*1 ∧
    (∀ name b', (name, b') ∈ zip' →
       ∃ b im,
         here !! name = Some (File b) ∧
         image_decode b = Some im ∧
         image_encode name (image_resize im (640, 480)%N) = Saved b' ∧
         image_size (image_resize im (640, 480)%N) = (640, 480)%N ∧
         (writer_keeps_size name → opens_at b' (640, 480)%N)) ∧
    (∀ a zip,
       cwd w !! temp = None →
       cwd w !! filename = Some (File a) →
       zip_parse a = Some zip →
       Forall plain_name zip.*1 →
       NoDup zip.*1 →
       zip'.*1 ≡ₚ zip.*1 ∧
       length zip' = length zip ∧
       ∀ name b, here !! name = Some (File b) → (name, b) ∈ zip).
Proof.
  intros temp Hrun.
  pose proof (temp_directory_fresh_name filename) as Hne. fold temp in Hne.
  assert ((ZipProcessor_py.ZipProcessor.unzip_files
             (ZipProcessor_py.ZipProcessor.__init__ filename) ;;
           ScaleZip_py.ScaleZip.process_files
             (ScaleZip_py.ScaleZip.__init__ filename) ;;
           ZipProcessor_py.ZipProcessor.zip_files
             (ZipProcessor_py.ZipProcessor.__init__ filename)) w
          = (Ok (), w')) as E by by destruct Hrun.
  clear Hrun.
  apply pipeline_ok_inv in E as (w1 & w2 & here2 & E1 & E2 & Hhere2 & ->);
    [|done].
  apply scale_files_ok in E2 as (here & here' & Hhere & -> & Htrans).
  simpl in Hhere, Hhere2. fold temp in Hhere, Hhere2.
  rewrite lookup_insert_eq in Hhere2. injection Hhere2 as <-.
  destruct (packed_transformed _ _ _ Htrans) as [Hnames Hmembers].
  exists w1, here, (packed here'). simpl. split_and!.
  - exact E1.
  - exact Hhere.
  - rewrite lookup_delete_ne by done. by rewrite lookup_insert_eq.
  - exact Hnames.
  - intros name b' Hin. apply Hmembers in Hin as (b & Hb & Hbytes).
    unfold scale_bytes in Hbytes.
    destruct (image_decode b) as [im|] eqn:Hdec; [|done]. simpl in Hbytes.
    destruct (image_encode name (image_resize im (640, 480)%N))
      as [saved| | |] eqn:Hsave; try done.
    injection Hbytes as ->. exists b, im. split_and!; [done..|].
    intros Hkeeps. exact (Hkeeps _ _ Hsave).
  - intros a zip Hfresh Ha Hzip Hplain Hnodup.
    rewrite unzip_files_run in E1 by done. simpl in E1. fold temp in E1.
    rewrite Ha, Hzip in E1.
    assert (after_mkdir temp w = made temp w) as Hmade.
    { unfold after_mkdir. by rewrite Hfresh. }
    rewrite Hmade in E1.
    rewrite (ZipFile_extractall_plain temp zip ∅) in E1;
      [ | done.. | simpl; by rewrite lookup_insert_eq | done].
    injection E1 as <-. simpl in Hhere. rewrite lookup_insert_eq in Hhere.
    injection Hhere as <-. rewrite (right_id_L ∅ (∪)) in *.
    destruct (extracted_entries zip Hnodup) as [Hkeys Hfiles].
    split_and!.
    + by rewrite Hnames.
    + apply Permutation_length in Hnames, Hkeys.
      rewrite !length_fmap in Hnames, Hkeys. by etrans.
    + exact Hfiles.
Qed.

Lemma scale_run_sizes_witness :
  let run :=
    @ScaleZip_py.ZipProcessor.process_zip stored _
      (@ScaleZip_py.ScaleZip.derived blank)
      (ScaleZip_py.ScaleZip.__init__ "photos.zip") photos in
  ∃ zip',
    cwd run.2 !! "photos.zip" = Some (File (stored_build zip')) ∧
    length zip' = 2 ∧
    ∀ name b', (name, b') ∈ zip' → @opens_at blank b' (640, 480)%N.
Proof.
  intros run.
  pose proof (@scale_run_sizes stored blank "photos.zip" photos run.2)
    as Hsizes.
  cbv zeta in Hsizes.
  assert (@ScaleZip_py.ZipProcessor.process_zip stored _
            (@ScaleZip_py.ScaleZip.derived blank)
            (ScaleZip_py.ScaleZip.__init__ "photos.zip") photos
          = (Ok (), run.2)) as Hrun.
  { apply injective_projections; [by vm_compute | done]. }
  destruct (Hsizes (or_introl Hrun))
    as (w1 & here & zip' & _ & _ & Harchive & _ & Hmembers & Hplain).
  assert (cwd photos !! ("unzipped-" +:+ "photos.zip") = None) as H1
    by by vm_compute.
  assert (cwd photos !! "photos.zip"
          = Some (File (stored_build
                          [("a.png", unary 100 ++ unary 100);
                           ("b.jpg", unary 1920 ++ unary 1080)]))) as H2
    by by vm_compute.
  assert (@zip_parse stored
            (stored_build
               [("a.png", unary 100 ++ unary 100);
                ("b.jpg", unary 1920 ++ unary 1080)])
          = Some [("a.png", unary 100 ++ unary 100);
                  ("b.jpg", unary 1920 ++ unary 1080)]) as H3
    by by vm_compute.
  assert (Forall plain_name
            [("a.png", unary 100 ++ unary 100);
             ("b.jpg", unary 1920 ++ unary 1080)].*1) as H4
    by (repeat constructor).
  assert (NoDup [("a.png", unary 100 ++ unary 100);
                 ("b.jpg", unary 1920 ++ unary 1080)].*1) as H5.
  { apply NoDup_cons. split; [by intros Hin%list_elem_of_singleton|].
    apply NoDup_singleton. }
  destruct (Hplain _ _ H1 H2 H3 H4 H5) as (_ & Hlength & _).
  exists zip'. split_and!; [exact Harchive | exact Hlength |].
  intros name b' Hin.
  destruct (Hmembers name b' Hin) as (b & im & _ & _ & _ & _ & Hopens).
  apply Hopens, blank_keeps_size.
Defined.

(** C4 fails where the writer of a format does not keep the size.  An icon
    of 32 by 32 is a decodable image; the run succeeds and resizes it to
    640 by 480, and [save] writes an [.ico] file, whose largest frame is
    256 by 192: that is the size the member decodes to. *)
Lemma scale_run_icon_size :
  let run :=
    @ScaleZip_py.ZipProcessor.process_zip stored _
      (@ScaleZip_py.ScaleZip.derived icons)
      (ScaleZip_py.ScaleZip.__init__ "icons.zip") icon_archive in
  @image_decode icons (unary 32 ++ unary 32) = Some ((32, 32)%N, ()) ∧
  run.1 = Ok () ∧
  stored_archive run.2 "icons.zip"
    = Some [("logo.ico", unary 256 ++ unary 192)] ∧
  @image_decode icons (unary 256 ++ unary 192) = Some ((256, 192)%N, ()) ∧
  ¬ @opens_at icons (unary 256 ++ unary 192) (640, 480)%N.
Proof.
  split_and!; [by vm_compute..|].
  intros (im & Hdecode & Hsize). vm_compute in Hdecode.
  injection Hdecode as <-. by vm_compute in Hsize.
Qed.

Example scale_photos :
  let run :=
    @ScaleZip_py.ZipProcessor.process_zip stored _
      (@ScaleZip_py.ScaleZip.derived blank)
      (ScaleZip_py.ScaleZip.__init__ "photos.zip") photos in
  run.1 = Ok () ∧
  stored_archive run.2 "photos.zip"
    = Some [("a.png", unary 640 ++ unary 480);
            ("b.jpg", unary 640 ++ unary 480)].
Proof. by vm_compute. Qed.


(** ** C5: what [zip_files] writes *)






(** ** C7: the archive before [zip_files] starts *)

(** C7.  In a run of [process_zip] the archive is as it was, byte for byte,
    when [unzip_files] and [process_files] have run, whatever their outcome;
    and when one of them raises, the run stops there with that exception. *)
Theorem archive_unchanged_before_zip_files `{Platform} `{ZipCodec}
    (filename : string) (search replace : str)
    (w : world) (r : outcome ()) (w1 : world) :
  let self := ZipProcessor_py.ZipReplace.__init__ filename search replace in
  (ZipProcessor_py.ZipProcessor.unzip_files
     (ZipProcessor_py.ZipReplace.base self) ;;
   ZipProcessor_py.ZipReplace.process_files self) w = (r, w1) →
  cwd w1 !! filename = cwd w !! filename ∧
  ∀ e, r = Raise e →
    ZipProcessor_py.ZipProcessor.process_zip self w = (Raise e, w1).
Proof.
  intros self E. split.
  - apply (pipeline_archive_kept
             (ZipProcessor_py.ZipProcessor.__init__ filename)
             (ZipProcessor_py.ZipReplace.process_files self) w r w1);
      [apply temp_directory_fresh_name | apply process_files_touches | done].
  - intros e ->. unfold ZipProcessor_py.ZipProcessor.process_zip.
    rewrite bind_run in E |- *. simpl in *.
    destruct (ZipProcessor_py.ZipProcessor.unzip_files _ w)
      as [[[]|e1] w0]; [|done].
    rewrite bind_run. by rewrite E.
Qed.

Lemma archive_unchanged_before_zip_files_witness :
  let w := start [("sample.zip",
                   File (stored_build [("photo.raw", [xff])]))] in
  let self :=
    ZipProcessor_py.ZipReplace.__init__ "sample.zip" (py "Maria") (py "Mario")
  in
  let steps :=
    (@ZipProcessor_py.ZipProcessor.unzip_files stored
       (ZipProcessor_py.ZipReplace.base self) ;;
     @ZipProcessor_py.ZipReplace.process_files posix_utf8 self) w in
  steps.1 = Raise UnicodeDecodeError ∧
  cwd steps.2 !! "sample.zip" = cwd w !! "sample.zip" ∧
  @ZipProcessor_py.ZipProcessor.process_zip stored _
    (@ZipProcessor_py.ZipReplace.derived posix_utf8) self w
    = (Raise UnicodeDecodeError, steps.2).
Proof.
  intros w self steps.
  assert (steps = (Raise UnicodeDecodeError, steps.2)) as E by by vm_compute.
  destruct (@archive_unchanged_before_zip_files posix_utf8 stored
              "sample.zip" (py "Maria") (py "Mario") w _ _ E) as [Hkept Hstop].
  split_and!; [by rewrite E | done | by apply Hstop].
Defined.

(** X16.  The same holds for the image transform of [ScaleZip.py]:
    whatever the outcome of [unzip_files] followed by [process_files], the
    archive is afterwards as it was before; only [zip_files] writes it. *)
Lemma scale_keeps_archive_before_repack `{ZipCodec} `{PIL}
    (filename : string) (w : world) (r : outcome ()) (w1 : world) :
  let self := ScaleZip_py.ScaleZip.__init__ filename in
  (ScaleZip_py.ZipProcessor.unzip_files (ScaleZip_py.ScaleZip.base self) ;;
   ScaleZip_py.ScaleZip.process_files self) w = (r, w1) →
  cwd w1 !! filename = cwd w !! filename.
Proof.
  intros self E.
  apply (pipeline_archive_kept
           (ZipProcessor_py.ZipProcessor.__init__ filename)
           (ScaleZip_py.ScaleZip.process_files self) w r w1);
    [apply temp_directory_fresh_name | apply scale_files_touches | done].
Qed.


(** ** C9: inheritance and composition *)

(** C9.  On every archive and with every search and replace string, the
    run of the [ZipReplace] subclass of [ZipProcessor.py] and the run of
    the [ZipProcessor] of [ZipProcessorComposition.py] with a [ZipReplace]
    processor have the same outcome and leave the same files, the archive
    among them. *)
Theorem inheritance_composition_same_run `{Platform} `{ZipCodec}
    (filename : string) (search replace : str) (w : world) :
  ZipProcessor_py.ZipProcessor.process_zip
    (ZipProcessor_py.ZipReplace.__init__ filename search replace) w =
  ZipProcessorComposition_py.ZipProcessor.process_zip
    (ZipProcessorComposition_py.ZipProcessor.__init__
       (ZipProcessorComposition_py.ZipReplace.__init__ search replace)
       filename) w.
Proof. reflexivity. Qed.

(** X18.  So do the two image pipelines, the [ScaleZip] subclass of
    [ScaleZip.py] and the [ScaleZip] processor of
    [ZipProcessorComposition.py]: on every archive they have the same
    outcome and leave the same files. *)
Lemma scale_inheritance_composition_same `{ZipCodec} `{PIL}
    (filename : string) (w : world) :
  ScaleZip_py.ZipProcessor.process_zip
    (ScaleZip_py.ScaleZip.__init__ filename) w =
  ZipProcessorComposition_py.ZipProcessor.process_zip
    (ZipProcessorComposition_py.ZipProcessor.__init__
       ZipProcessorComposition_py.ScaleZip.__init__ filename) w.
Proof. reflexivity. Qed.

(** X19.  The manager object of [ZipReplace.py] runs the same steps too:
    on every archive and with every search and replace string,
    [zip_find_replace] has the outcome of [process_zip] of the [ZipReplace]
    subclass of [ZipProcessor.py] and leaves the same files. *)
Lemma zip_find_replace_same_run `{Platform} `{ZipCodec}
    (filename : string) (search replace : str) (w : world) :
  ZipReplace_py.ZipReplace.zip_find_replace
    (ZipReplace_py.ZipReplace.__init__ filename search replace) w =
  ZipProcessor_py.ZipProcessor.process_zip
    (ZipProcessor_py.ZipReplace.__init__ filename search replace) w.
Proof. reflexivity. Qed.


(** ** C8: the same search and replace string *)

Lemma universal_newlines_no_CR (s : str) :
  CR ∉ s → universal_newlines s = s.
Proof.
  induction s as [|c s IH]; [done|]. intros Hno.
  apply not_elem_of_cons in Hno as [Hc Hno]. simpl.
  rewrite bool_decide_eq_false_2 by done. by rewrite IH.
Qed.

Lemma translate_linesep_LF `{Platform} (s : str) :
  linesep = [LF] → translate_linesep s = s.
Proof.
  intros Hsep. unfold translate_linesep. rewrite Hsep.
  induction s as [|c s IH]; [done|]. simpl. rewrite IH.
  by case_bool_decide; subst.
Qed.

(** C8 (as the scripts have it).  With the replace string equal to the
    search string, the substitution gives back the text it was given, and a
    successful [find_replace] rewrites every file with the text it read
    from it.  The text is what is kept: the bytes of a file are unchanged
    exactly when they are what text mode writes for its text.  They are for
    a file without carriage return whose text the codec encodes to the same
    bytes, where the line separator is ["\n"]. *)
Theorem find_replace_same_strings `{Platform}
    (filename : string) (s : str) (w w' : world) :
  let self := ZipReplace_py.ZipReplace.__init__ filename s s in
  let temp := "unzipped-" +:+ filename in
  ZipReplace_py.ZipReplace.find_replace self w = (Ok (), w') →
  ∃ here here',
    cwd w !! temp = Some (Dir here) ∧
    cwd w' !! temp = Some (Dir here') ∧
    ∀ name b, here !! name = Some (File b) →
      ∃ t b',
        text_read b = Some t ∧ str_replace t s s = t ∧
        text_write t = Some b' ∧ here' !! name = Some (File b') ∧
        (b' = b ↔ text_write t = Some b) ∧
        (linesep = [LF] → CR ∉ t → codec_encode t = Some b → b' = b).
Proof.
  intros self temp E.
  apply (process_files_ok
           (ZipProcessor_py.ZipReplace.__init__ filename s s)) in E
    as (here & here' & Hhere & -> & Htrans).
  exists here, here'. simpl. split_and!; [done | by rewrite lookup_insert_eq |].
  intros name b Hb. specialize (Htrans name). rewrite Hb in Htrans.
  destruct Htrans as (b' & Hbytes & Hb'). unfold replace_bytes in Hbytes.
  simpl in Hbytes. destruct (text_read b) as [t|]; [|done]. simpl in Hbytes.
  rewrite str_replace_same in Hbytes.
  exists t, b'. split_and!; [done | apply str_replace_same | done..| |].
  - split; [by intros <- | congruence].
  - intros Hsep Hno Henc. unfold text_write in Hbytes.
    rewrite translate_linesep_LF in Hbytes by done. congruence.
Qed.

Lemma find_replace_same_strings_witness :
  let run :=
    @ZipReplace_py.ZipReplace.find_replace posix_utf8
      (ZipReplace_py.ZipReplace.__init__ "a.zip" (py "x") (py "x")) unix in
  run.1 = Ok () ∧
  ∃ here',
    cwd run.2 !! "unzipped-a.zip" = Some (Dir here') ∧
    here' !! "unix.txt" = Some (File [x61; x0a; x62]).
Proof.
  intros run. split; [by vm_compute|].
  destruct (@find_replace_same_strings posix_utf8 "a.zip" (py "x") unix run.2)
    as (here & here' & Hhere & Hhere' & Hall); [by vm_compute|].
  exists here'. split; [done|].
  vm_compute in Hhere. injection Hhere as <-.
  destruct (Hall "unix.txt" [x61; x0a; x62])
    as (t & b' & Ht & _ & _ & Hb' & _ & Hsame); [by vm_compute|].
  vm_compute in Ht. injection Ht as <-.
  rewrite Hb'. do 2 f_equal. apply Hsame; [done | | by vm_compute].
  intros Hin. vm_compute in Hin.
  repeat (apply elem_of_cons in Hin as [Hin|Hin]; [done|]).
  by apply elem_of_nil in Hin.
Defined.

(** C8 fails on the bytes.  On a POSIX system the file ["a\rb"] is read as
    the text ["a\nb"] and written back as the bytes ["a\nb"], although
    nothing was replaced. *)
Lemma find_replace_same_strings_changes_bytes :
  let run :=
    @ZipReplace_py.ZipReplace.find_replace posix_utf8
      (ZipReplace_py.ZipReplace.__init__ "a.zip" (py "x") (py "x")) classic in
  run.1 = Ok () ∧
  cwd classic !! "unzipped-a.zip"
    = Some (Dir {[ "mac.txt" := File [x61; x0d; x62] ]}) ∧
  cwd run.2 !! "unzipped-a.zip"
    = Some (Dir {[ "mac.txt" := File [x61; x0a; x62] ]}).
Proof. by vm_compute. Qed.


(** ** C10: the empty search string *)

Lemma replace_empty_same new s : replace_empty new s = s ↔ new = [].
Proof.
  split.
  - intros E. apply (f_equal length) in E.
    rewrite replace_empty_length in E.
    destruct new; [done|]. simpl in E. lia.
  - intros ->. unfold replace_empty. simpl.
    induction s as [|c s IH]; simpl; congruence.
Qed.

(** C10 (as the scripts have it).  With an empty search string the
    substitution puts the replace string before every character of the
    text and at its end: for a text of [n] characters, [n + 1] copies, so
    the text grows by [n + 1] times the length of the replace string.  The
    text is left unchanged exactly when the replace string is empty too.
    A successful [find_replace] (or [process_files] of [ZipProcessor.py])
    writes that text to every file. *)
Theorem find_replace_empty_search `{Platform}
    (filename : string) (new : str) (w w' : world) :
  let temp := "unzipped-" +:+ filename in
  (∀ t : str,
     str_replace t [] new = new ++ flat_map (λ c, c :: new) t ∧
     length (str_replace t [] new) = length t + (length t + 1) * length new ∧
     (str_replace t [] new = t ↔ new = [])) ∧
  (ZipReplace_py.ZipReplace.find_replace
     (ZipReplace_py.ZipReplace.__init__ filename [] new) w = (Ok (), w') ∨
   ZipProcessor_py.ZipReplace.process_files
     (ZipProcessor_py.ZipReplace.__init__ filename [] new) w = (Ok (), w') →
   ∃ here here',
     cwd w !! temp = Some (Dir here) ∧
     cwd w' !! temp = Some (Dir here') ∧
     ∀ name b, here !! name = Some (File b) →
       ∃ t b',
         text_read b = Some t ∧
         text_write (new ++ flat_map (λ c, c :: new) t) = Some b' ∧
         here' !! name = Some (File b')).
Proof.
  intros temp. split.
  - intros t. split_and!.
    + done.
    + simpl. rewrite replace_empty_length. lia.
    + apply replace_empty_same.
  - intros Hrun.
    assert (ZipProcessor_py.ZipReplace.process_files
              (ZipProcessor_py.ZipReplace.__init__ filename [] new) w
            = (Ok (), w')) as E by by destruct Hrun.
    apply process_files_ok in E as (here & here' & Hhere & -> & Htrans).
    exists here, here'. simpl.
    split_and!; [done | by rewrite lookup_insert_eq |].
    intros name b Hb. specialize (Htrans name). rewrite Hb in Htrans.
    destruct Htrans as (b' & Hbytes & Hb'). unfold replace_bytes in Hbytes.
    simpl in Hbytes. destruct (text_read b) as [t|]; [|done].
    by exists t, b'.
Qed.

Lemma find_replace_empty_search_witness :
  let w := start [("unzipped-a.zip", Dir {[ "abc.txt" := File (raw "abc") ]})]
  in
  let run :=
    @ZipReplace_py.ZipReplace.find_replace posix_utf8
      (ZipReplace_py.ZipReplace.__init__ "a.zip" [] (py "-")) w in
  str_replace (py "abc") [] (py "-") = py "-a-b-c-" ∧
  ∃ here',
    cwd run.2 !! "unzipped-a.zip" = Some (Dir here') ∧
    ∃ t b',
      @text_read posix_utf8 (raw "abc") = Some t ∧
      @text_write posix_utf8 (py "-" ++ flat_map (λ c, c :: py "-") t)
        = Some b' ∧
      here' !! "abc.txt" = Some (File b').
Proof.
  intros w run.
  destruct (@find_replace_empty_search posix_utf8 "a.zip" (py "-") w run.2)
    as [Htext Hrun].
  split; [by rewrite (proj1 (Htext (py "abc")))|].
  destruct Hrun as (here & here' & Hhere & Hhere' & Hall);
    [left; by vm_compute|].
  exists here'. split; [done|]. apply Hall.
  vm_compute in Hhere. injection Hhere as <-. by vm_compute.
Defined.

(** C10 fails when the replace string is empty as well: the [n + 1] copies
    are empty and the content is left unchanged. *)
Lemma find_replace_empty_strings_unchanged :
  let w := start [("unzipped-a.zip", Dir {[ "abc.txt" := File (raw "abc") ]})]
  in
  let run :=
    @ZipReplace_py.ZipReplace.find_replace posix_utf8
      (ZipReplace_py.ZipReplace.__init__ "a.zip" [] []) w in
  str_replace (py "abc") [] [] = py "abc" ∧
  run.1 = Ok () ∧
  cwd run.2 !! "unzipped-a.zip" = cwd w !! "unzipped-a.zip".
Proof. by vm_compute. Qed.


(** ** C6: an entry that cannot be transformed *)

Lemma for_each_child_failure dir f P body (l : list string) here w e w' :
  child_update dir f body →
  child_failure dir P body →
  cwd w !! dir = Some (Dir here) →
  (∀ name, name ∈ l → is_Some (here !! name)) →
  for_each l body w = (Raise e, w') →
  P e.
Proof.
  intros Hok Hfail. revert here w.
  induction l as [|x l IH]; intros here w Hdir Hl E; [done|].
  simpl in E. apply bind_raise_inv in E as [E|([] & w1 & E1 & E2)].
  - eapply Hfail; [done | | done]. apply Hl. by left.
  - apply Hok in E1 as (here0 & b & b' & Hdir0 & Hx & _ & ->).
    rewrite Hdir in Hdir0. injection Hdir0 as <-.
    eapply (IH (<[x := File b']> here)); [| |done].
    + simpl. by rewrite lookup_insert_eq.
    + intros name Hin. destruct (decide (x = name)) as [->|Hne].
      * rewrite lookup_insert_eq. by eexists.
      * rewrite lookup_insert_ne by done. apply Hl. by right.
Qed.

(** A loop over the entries of a directory raises when [f] fails on one of
    its files, and then with one of the exceptions [P]. *)
Lemma iterdir_child_failure dir f P body here name b w :
  child_update dir f body →
  child_failure dir P body →
  cwd w !! dir = Some (Dir here) →
  here !! name = Some (File b) →
  f name b = None →
  ∃ e w',
    (names ← Path_iterdir dir; for_each names body) w = (Raise e, w') ∧ P e.
Proof.
  intros Hok Hfail Hdir Hname Hf.
  destruct ((names ← Path_iterdir dir; for_each names body) w)
    as [[[]|e] w'] eqn:E.
  - apply (iterdir_child_update dir f) in E
      as (here0 & here' & Hdir0 & _ & Htrans); [|done].
    rewrite Hdir in Hdir0. injection Hdir0 as <-.
    specialize (Htrans name). rewrite Hname in Htrans.
    destruct Htrans as (b' & Hb' & _). congruence.
  - exists e, w'. split; [done|].
    rewrite bind_run in E. unfold Path_iterdir in E. rewrite bind_run in E.
    simpl in E. rewrite Hdir in E. simpl in E.
    eapply (for_each_child_failure dir f P body); [done..| |exact E].
    intros name' Hin.
    apply list_elem_of_fmap in Hin as ([name0 n] & -> & Hin).
    apply elem_of_map_to_list in Hin. by eexists.
Qed.

Lemma text_body_child_failure `{Platform} dir old new :
  child_failure dir (text_failure dir) (λ filename,
    contents ← with_ (Path_open dir filename) close
      (λ file,
        contents ← file_read file;
        mret (str_replace contents old new));
    with_ (Path_open_w dir filename) close (λ file,
      file_write file contents)).
Proof.
  intros name w e w' here Hdir [n Hn]. rewrite bind_run, with_close, bind_run.
  unfold Path_open. rewrite bind_run. unfold lookup_child.
  rewrite bind_run. simpl. rewrite Hdir, Hn. simpl.
  destruct n as [b|d]; simpl.
  2:{ intros [= <- <-]. right. right. by exists name. }
  rewrite bind_run. unfold file_read.
  destruct (text_read b) as [t|]; simpl.
  2:{ intros [= <- <-]. by left. }
  rewrite open_w_write, bind_run. unfold store_child at 1.
  rewrite bind_run. simpl. rewrite Hdir, Hn. simpl.
  unfold file_write. destruct (text_write (str_replace t old new)) as [b'|].
  2:{ intros [= <- <-]. right. by left. }
  simpl. unfold store_child. rewrite bind_run. simpl.
  by rewrite !lookup_insert_eq.
Qed.

Section ImageFailure.
Context `{PIL}.

Lemma image_body_raise dir name w e w' here n :
  cwd w !! dir = Some (Dir here) →
  here !! name = Some n →
  (im ← Image_open dir name;
   scaled ← Image_resize im (640, 480)%N;
   Image_save scaled dir name) w = (Raise e, w') →
  image_entry_error dir name n = Some e.
Proof.
  intros Hdir Hn. rewrite bind_run.
  unfold Image_open. rewrite bind_run. unfold lookup_child.
  rewrite bind_run. simpl. rewrite Hdir, Hn. simpl.
  destruct n as [b|d]; simpl; [|by intros [= <- <-]].
  destruct (image_identify b) as [f| |e0]; simpl;
    [|by intros [= <- <-]..].
  rewrite bind_run. unfold Image_resize.
  destruct (image_load f) as [e0|im]; simpl; [by intros [= <- <-]|].
  unfold Image_save.
  destruct (image_encode name (image_resize im (640, 480)%N))
    as [b'|ext|format|e0 partial]; simpl.
  - unfold store_child. rewrite bind_run. simpl. by rewrite Hdir, Hn.
  - by intros [= <- <-].
  - by intros [= <- <-].
  - rewrite bind_run. unfold store_child. rewrite bind_run. simpl.
    rewrite Hdir, Hn. simpl. by intros [= <- <-].
Qed.

(** The loop of the image transform raises the exception of the library
    call that failed on an entry, and that entry is as the loop found
    it. *)
Lemma image_loop_error dir (l : list string) here w e w' :
  NoDup l →
  cwd w !! dir = Some (Dir here) →
  (∀ name, name ∈ l → is_Some (here !! name)) →
  for_each l (λ filename,
    im ← Image_open dir filename;
    scaled ← Image_resize im (640, 480)%N;
    Image_save scaled dir filename) w = (Raise e, w') →
  ∃ name n,
    name ∈ l ∧ here !! name = Some n ∧ image_entry_error dir name n = Some e.
Proof.
  revert here w. induction l as [|x l IH]; intros here w Hnodup Hdir Hl E;
    [done|].
  apply NoDup_cons in Hnodup as [Hx Hnodup].
  simpl in E. apply bind_raise_inv in E as [E|([] & w1 & E1 & E2)].
  - destruct (Hl x) as [n Hn]; [by left|].
    exists x, n. split_and!; [by left | done |].
    by eapply image_body_raise.
  - apply image_body_child_update in E1
      as (here0 & b & b' & Hdir0 & Hb & _ & ->).
    rewrite Hdir in Hdir0. injection Hdir0 as <-.
    apply (IH (<[x := File b']> here)) in E2 as (name & n & Hin & Hn & He);
      [ | done | simpl; by rewrite lookup_insert_eq | ].
    + assert (name ≠ x) as Hne by (by intros ->).
      rewrite lookup_insert_ne in Hn by done.
      exists name, n. split_and!; [by right | done..].
    + intros name Hin. destruct (decide (x = name)) as [->|Hne].
      * rewrite lookup_insert_eq. by eexists.
      * rewrite lookup_insert_ne by done. apply Hl. by right.
Qed.

Lemma scale_files_failure (self : ScaleZip_py.ScaleZip.t) here w e w' :
  cwd w !! ScaleZip_py.ScaleZip.temp_directory self = Some (Dir here) →
  ScaleZip_py.ScaleZip.process_files self w = (Raise e, w') →
  image_failure (ScaleZip_py.ScaleZip.temp_directory self) here e.
Proof.
  intros Hdir E. unfold ScaleZip_py.ScaleZip.process_files in E.
  rewrite bind_run in E. unfold Path_iterdir in E. rewrite bind_run in E.
  simpl in E. rewrite Hdir in E. simpl in E.
  apply (image_loop_error _ _ here) in E as (name & n & _ & Hn & He);
    [by exists name, n | apply NoDup_fst_map_to_list | done |].
  intros name Hin.
  apply list_elem_of_fmap in Hin as ([name0 n] & -> & Hin).
  apply elem_of_map_to_list in Hin. by eexists.
Qed.
End ImageFailure.

Example save_without_extension :
  @ScaleZip_py.ScaleZip.process_files blank
    (ScaleZip_py.ScaleZip.__init__ "a.zip") unnamed_format
  = (Raise (ValueError "unknown file extension: "), unnamed_format).
Proof. by vm_compute. Qed.

Lemma pipeline_stops (unzip process zip : M unit) w0 w e w' :
  unzip w0 = (Ok (), w) →
  process w = (Raise e, w') →
  (unzip ;; process ;; zip) w0 = (Raise e, w').
Proof. intros E0 E. by rewrite bind_run, E0, bind_run, E. Qed.

(** C6 (as the scripts have it).  Let a run have extracted the archive, and
    let the temporary directory hold a file that cannot be transformed: one
    that does not decode as text for the text transform, one that is no
    image for the image transform.  Then the transform raises, with the
    exception of the library call that failed on the first entry that
    cannot be processed (there is no wrapping error), the run stops with
    that exception before [zip_files], the archive is as it was and
    [shutil.rmtree] has not been called.  For the image transform the
    exception is the one that [Image.open], [resize] or [save] raised on an
    entry of the directory, whatever its class: [IsADirectoryError] or
    [UnidentifiedImageError] on the path of the entry, the exception of
    the reader of its format, or what [save] raises for its scaled
    image. *)
Theorem transform_failure_aborts `{Platform} `{ZipCodec} `{PIL}
    (filename : string) (search replace : str)
    (w0 w : world) (here : gmap string node) (name : string) (b : bytes) :
  let temp := "unzipped-" +:+ filename in
  let aborted (w' : world) :=
    cwd w' !! filename = cwd w0 !! filename ∧
    rmtree_calls temp w' = rmtree_calls temp w0 in
  ZipProcessor_py.ZipProcessor.unzip_files
    (ZipProcessor_py.ZipProcessor.__init__ filename) w0 = (Ok (), w) →
  cwd w !! temp = Some (Dir here) →
  here !! name = Some (File b) →
  (text_read b = None →
   ∃ e w',
     ZipReplace_py.ZipReplace.find_replace
       (ZipReplace_py.ZipReplace.__init__ filename search replace) w
       = (Raise e, w') ∧
     ZipReplace_py.ZipReplace.zip_find_replace
       (ZipReplace_py.ZipReplace.__init__ filename search replace) w0
       = (Raise e, w') ∧
     text_failure temp e ∧ aborted w') ∧
  (image_decode b = None →
   ∃ e w',
     ScaleZip_py.ScaleZip.process_files
       (ScaleZip_py.ScaleZip.__init__ filename) w = (Raise e, w') ∧
     ScaleZip_py.ZipProcessor.process_zip
       (ScaleZip_py.ScaleZip.__init__ filename) w0 = (Raise e, w') ∧
     image_failure temp here e ∧ aborted w').
Proof.
  intros temp aborted E0 Hhere Hname.
  pose proof (temp_directory_fresh_name filename) as Hne. fold temp in Hne.
  destruct (unzip_files_touches _ _ _ _ E0) as (Hsame0 & _ & Hcalls0 & _).
  simpl in Hsame0, Hcalls0. fold temp in Hsame0, Hcalls0.
  split.
  - intros Hbad.
    destruct (iterdir_child_failure temp
                (λ _, replace_bytes search replace) (text_failure temp)
                _ here name b w
                (text_body_child_update temp search replace)
                (text_body_child_failure temp search replace)
                Hhere Hname) as (e & w' & E & He).
    { unfold replace_bytes. by rewrite Hbad. }
    exists e, w'. split_and!; [exact E | | done |].
    + exact (pipeline_stops _ _ _ w0 w e w' E0 E).
    + destruct (process_files_touches
                  (ZipProcessor_py.ZipReplace.__init__ filename search replace)
                  _ _ _ E) as (Hsame & _ & Hcalls & _).
      simpl in Hsame, Hcalls. fold temp in Hsame, Hcalls.
      split; [by rewrite Hsame, Hsame0 | by rewrite Hcalls, Hcalls0].
  - intros Hbad.
    destruct (iterdir_child_failure temp scale_bytes (λ _, True)
                _ here name b w
                (image_body_child_update temp)
                (λ _ _ _ _ _ _ _ _, I)
                Hhere Hname) as (e & w' & E & _).
    { unfold scale_bytes. by rewrite Hbad. }
    exists e, w'. split_and!; [exact E | | |].
    2:{ exact (scale_files_failure
                 (ScaleZip_py.ScaleZip.__init__ filename) here w e w'
                 Hhere E). }
    + exact (pipeline_stops _ _ _ w0 w e w' E0 E).
    + destruct (scale_files_touches (ScaleZip_py.ScaleZip.__init__ filename)
                  _ _ _ E) as (Hsame & _ & Hcalls & _).
      simpl in Hsame, Hcalls. fold temp in Hsame, Hcalls.
      split; [by rewrite Hsame, Hsame0 | by rewrite Hcalls, Hcalls0].
Qed.

Lemma transform_failure_aborts_witness :
  let temp := "unzipped-sample.zip" in
  (∃ e w',
     @ZipReplace_py.ZipReplace.zip_find_replace posix_utf8 stored
       (ZipReplace_py.ZipReplace.__init__ "sample.zip"
          (py "Maria") (py "Mario")) binary = (Raise e, w') ∧
     text_failure temp e ∧
     cwd w' !! "sample.zip" = cwd binary !! "sample.zip") ∧
  (∃ e w',
     @ScaleZip_py.ZipProcessor.process_zip stored _
       (@ScaleZip_py.ScaleZip.derived blank)
       (ScaleZip_py.ScaleZip.__init__ "sample.zip") binary = (Raise e, w') ∧
     @image_failure blank temp {[ "photo.raw" := File [xff] ]} e ∧
     cwd w' !! "sample.zip" = cwd binary !! "sample.zip").
Proof.
  intros temp.
  pose proof (@transform_failure_aborts posix_utf8 stored blank "sample.zip"
                (py "Maria") (py "Mario") binary
                (@ZipProcessor_py.ZipProcessor.unzip_files stored
                   (ZipProcessor_py.ZipProcessor.__init__ "sample.zip")
                   binary).2
                {[ "photo.raw" := File [xff] ]} "photo.raw" [xff]) as Habort.
  cbv zeta in Habort.
  assert (@ZipProcessor_py.ZipProcessor.unzip_files stored
            (ZipProcessor_py.ZipProcessor.__init__ "sample.zip") binary
          = (Ok (),
             (@ZipProcessor_py.ZipProcessor.unzip_files stored
                (ZipProcessor_py.ZipProcessor.__init__ "sample.zip")
                binary).2)) as Hunzip by by vm_compute.
  specialize (Habort Hunzip).
  assert (cwd (@ZipProcessor_py.ZipProcessor.unzip_files stored
                 (ZipProcessor_py.ZipProcessor.__init__ "sample.zip")
                 binary).2 !! ("unzipped-" +:+ "sample.zip")
          = Some (Dir {[ "photo.raw" := File [xff] ]})) as Hdir
    by by vm_compute.
  specialize (Habort Hdir).
  assert (({[ "photo.raw" := File [xff] ]} : gmap string node) !! "photo.raw"
          = Some (File [xff])) as Hfile by by vm_compute.
  specialize (Habort Hfile).
  destruct Habort as [Htext Himage].
  split.
  - destruct Htext as (e & w' & _ & E & He & Hkept & _); [by vm_compute|].
    exists e, w'. split; [exact E|]. split; [exact He | exact Hkept].
  - destruct Himage as (e & w' & _ & E & He & Hkept & _); [by vm_compute|].
    exists e, w'. split; [exact E|]. split; [exact He | exact Hkept].
Defined.

(** C6 fails in what the error carries.  There is no [TransformFailed]: the
    exception of the failing library call leaves [process_files] as it is,
    and for a file that is not text it is [UnicodeDecodeError], which does
    not name the entry. *)
Lemma transform_failure_names_no_entry :
  let run :=
    @ZipReplace_py.ZipReplace.zip_find_replace posix_utf8 stored
      (ZipReplace_py.ZipReplace.__init__ "sample.zip"
         (py "Maria") (py "Mario")) binary in
  run.1 = Raise UnicodeDecodeError ∧
  exn_path UnicodeDecodeError = None ∧
  cwd run.2 !! "unzipped-sample.zip"
    = Some (Dir {[ "photo.raw" := File [xff] ]}).
Proof. by vm_compute. Qed.


(** * Further properties of the scripts *)

(** ** [unzip_files] and what is already in the temporary directory *)






(** X2.  The [except FileExistsError] of [unzip_files] also catches the
    case where the name of the temporary directory is taken by a regular
    file: the warning is printed all the same, and the extraction of the
    first member then raises [NotADirectoryError].  Nothing but the printed
    line is left of the call, and a run of [process_zip] stops there. *)
Theorem unzip_files_temp_is_a_file `{Platform} `{ZipCodec}
    (filename : string) (search replace : str) (a x : bytes)
    (m : member) (zip : list member) (c : string) (comps : list string)
    (w : world) :
  let temp := "unzipped-" +:+ filename in
  let stopped : outcome () * world :=
    (Raise (NotADirectoryError (child_path temp c)),
     World (cwd w) (zip_members w)
       (Printed "WARNING: temp dir already present!" :: events w)) in
  cwd w !! filename = Some (File a) →
  zip_parse a = Some (m :: zip) →
  member_path m.1 = c :: comps →
  cwd w !! temp = Some (File x) →
  ZipProcessor_py.ZipProcessor.unzip_files
    (ZipProcessor_py.ZipProcessor.__init__ filename) w = stopped ∧
  ZipProcessor_py.ZipProcessor.process_zip
    (ZipProcessor_py.ZipReplace.__init__ filename search replace) w = stopped.
Proof.
  intros temp stopped Ha Hzip Hpath Htemp.
  pose proof (temp_directory_fresh_name filename) as Hne. fold temp in Hne.
  assert (ZipProcessor_py.ZipProcessor.unzip_files
            (ZipProcessor_py.ZipProcessor.__init__ filename) w = stopped)
    as Hunzip.
  { rewrite unzip_files_run by done. simpl. fold temp. rewrite Ha, Hzip.
    unfold ZipFile_extractall. simpl. rewrite bind_run.
    unfold ZipFile_extract. rewrite Hpath. simpl. rewrite bind_run. simpl.
    rewrite after_mkdir_lookup, Htemp. simpl.
    unfold after_mkdir. by rewrite Htemp. }
  split; [done|].
  unfold ZipProcessor_py.ZipProcessor.process_zip. rewrite bind_run.
  simpl. by rewrite Hunzip.
Qed.

Lemma unzip_files_temp_is_a_file_witness :
  @ZipProcessor_py.ZipProcessor.process_zip stored _
    (@ZipProcessor_py.ZipReplace.derived posix_utf8)
    (ZipProcessor_py.ZipReplace.__init__ "sample.zip" (py "a") (py "b"))
    occupied
  = (Raise (NotADirectoryError "unzipped-sample.zip/note.txt"),
     World (cwd occupied) []
       [Printed "WARNING: temp dir already present!"]).
Proof.
  pose proof (@unzip_files_temp_is_a_file posix_utf8 stored
                "sample.zip" (py "a") (py "b")
                (stored_build [("note.txt", raw "x")]) (raw "not a directory")
                ("note.txt", raw "x") [] "note.txt" [] occupied) as Hrun.
  cbv zeta in Hrun.
  assert (cwd occupied !! "sample.zip"
          = Some (File (stored_build [("note.txt", raw "x")]))) as H1
    by by vm_compute.
  assert (@zip_parse stored (stored_build [("note.txt", raw "x")])
          = Some [("note.txt", raw "x")]) as H2 by by vm_compute.
  assert (member_path ("note.txt", raw "x").1 = ["note.txt"]) as H3
    by by vm_compute.
  assert (cwd occupied !! ("unzipped-" +:+ "sample.zip")
          = Some (File (raw "not a directory"))) as H4 by by vm_compute.
  exact (proj2 (Hrun H1 H2 H3 H4)).
Defined.

(** ** The superclass on its own *)




(** ** Steps that work in place *)

Lemma same_names_refl here : same_names here here.
Proof. intros name. destruct (here !! name) as [[b|d]|]; eauto. Qed.

Lemma same_names_trans here1 here2 here3 :
  same_names here1 here2 → same_names here2 here3 → same_names here1 here3.
Proof.
  intros H12 H23 name. specialize (H12 name). specialize (H23 name).
  destruct (here1 !! name) as [[b|d]|].
  - destruct H12 as [b' Hb']. by rewrite Hb' in H23.
  - by rewrite H12 in H23.
  - by rewrite H12 in H23.
Qed.

Lemma same_names_insert here name b b' :
  here !! name = Some (File b) →
  same_names here (<[name := File b']> here).
Proof.
  intros Hname name'. destruct (decide (name' = name)) as [->|Hne].
  - rewrite Hname, lookup_insert_eq. eauto.
  - rewrite lookup_insert_ne by done. apply same_names_refl.
Qed.

#[global] Instance in_place_preorder dir : PreOrder (in_place dir).
Proof.
  split.
  - intros w. by left.
  - intros w1 w2 w3 [->|(here & here1 & Hdir & -> & H1)]; [done|].
    intros [->|(here1' & here2 & Hdir' & -> & H2)].
    + right. by exists here, here1.
    + simpl in *. rewrite lookup_insert_eq in Hdir'. injection Hdir' as <-.
      right. exists here, here2. split_and!; [done | |].
      * by rewrite insert_insert_eq.
      * by eapply same_names_trans.
Qed.

#[global] Instance quiet_preorder : PreOrder quiet.
Proof.
  split; [done|]. intros w1 w2 w3 H12 H23. unfold quiet in *. congruence.
Qed.

Lemma in_place_quiet dir w w' : in_place dir w w' → quiet w w'.
Proof. by intros [->|(here & here' & _ & -> & _)]. Qed.

Lemma in_place_touches dir w w' : in_place dir w w' → touches_only dir w w'.
Proof.
  intros [->|(here & here' & _ & -> & _)]; [reflexivity|].
  apply touches_only_insert.
Qed.

Lemma in_place_inv dir w w' here :
  cwd w !! dir = Some (Dir here) → in_place dir w w' →
  ∃ here',
    w' = World (<[dir := Dir here']> (cwd w)) (zip_members w) (events w) ∧
    same_names here here'.
Proof.
  intros Hdir [->|(here0 & here' & Hdir' & -> & Hsame)].
  - exists here. split; [|apply same_names_refl].
    rewrite insert_id by done. by destruct w.
  - rewrite Hdir in Hdir'. injection Hdir' as <-. by exists here'.
Qed.

Section InPlace.
Context `{Platform} `{ZipCodec}.

Lemma store_child_existing dir name data here b w :
  cwd w !! dir = Some (Dir here) → here !! name = Some (File b) →
  store_child dir name data w =
  (Ok (), World (<[dir := Dir (<[name := File data]> here)]> (cwd w))
            (zip_members w) (events w)).
Proof.
  intros Hdir Hname. unfold store_child. rewrite bind_run. simpl.
  by rewrite Hdir, Hname.
Qed.

(** The loop body of the text transform on the entry [filename]: either the
    world is as it was, or the entry was a regular file, which was emptied
    and then, when the new text could be encoded, written again. *)
Lemma text_body_run dir old new filename w r w' :
  (contents ← with_ (Path_open dir filename) close
     (λ file,
       contents ← file_read file;
       mret (str_replace contents old new));
   with_ (Path_open_w dir filename) close (λ file,
     file_write file contents)) w = (r, w') →
  (w' = w ∧ r ≠ Ok () ∧ r ≠ Raise UnicodeEncodeError) ∨
  ∃ here b t,
    cwd w !! dir = Some (Dir here) ∧ here !! filename = Some (File b) ∧
    text_read b = Some t ∧
    match text_write (str_replace t old new) with
    | Some b' =>
        r = Ok () ∧
        w' = World (<[dir := Dir (<[filename := File b']> here)]> (cwd w))
               (zip_members w) (events w)
    | None =>
        r = Raise UnicodeEncodeError ∧
        w' = World (<[dir := Dir (<[filename := File []]> here)]> (cwd w))
               (zip_members w) (events w)
    end.
Proof.
  rewrite bind_run, with_close, bind_run.
  unfold Path_open at 1. rewrite bind_run. unfold lookup_child at 1.
  rewrite bind_run. simpl.
  destruct (cwd w !! dir) as [[b0|here]|] eqn:Hdir;
    try (intros [= <- <-]; left; by split_and!).
  destruct (here !! filename) as [[b|d]|] eqn:Hname; simpl;
    try (intros [= <- <-]; left; by split_and!).
  rewrite bind_run. unfold file_read.
  destruct (text_read b) as [t|] eqn:Ht; simpl;
    [|intros [= <- <-]; left; by split_and!].
  rewrite open_w_write, bind_run.
  rewrite (store_child_existing dir filename [] here b) by done.
  intros E. right. exists here, b, t. split_and!; [done..|].
  unfold file_write in E. simpl in E.
  destruct (text_write (str_replace t old new)) as [b'|].
  - rewrite (store_child_existing dir filename b'
               (<[filename := File []]> here) []) in E;
      simpl; rewrite ?lookup_insert_eq; [|done..].
    injection E as <- <-. simpl. by rewrite !insert_insert_eq.
  - by injection E as <- <-.
Qed.

Lemma text_body_in_place dir old new filename :
  respects (in_place dir)
    (contents ← with_ (Path_open dir filename) close
       (λ file,
         contents ← file_read file;
         mret (str_replace contents old new));
     with_ (Path_open_w dir filename) close (λ file,
       file_write file contents)).
Proof.
  intros w r w' E.
  apply text_body_run in E as [(-> & _)|(here & b & t & Hdir & Hname & _ & E)];
    [by left|].
  right. exists here.
  destruct (text_write (str_replace t old new)) as [b'|];
    destruct E as [_ ->]; eexists; (split_and!; [done..|]);
    by eapply same_names_insert.
Qed.

Lemma process_files_in_place (self : ZipProcessor_py.ZipReplace.t) :
  respects (in_place (ZipProcessor_py.ZipReplace.temp_directory self))
    (ZipProcessor_py.ZipReplace.process_files self).
Proof.
  apply respects_bind; [apply _ | |intros names].
  - apply respects_reads; [apply _ | apply Path_iterdir_reads].
  - apply respects_for_each; [apply _|]. intros filename.
    apply text_body_in_place.
Qed.

Lemma ZipFile_extract_quiet dir m : respects quiet (ZipFile_extract dir m).
Proof.
  intros w r w'. unfold ZipFile_extract. run_prim; intros; by simplify_eq.
Qed.

Lemma unzip_files_events (self : ZipProcessor_py.ZipProcessor.t) w r w' :
  ZipProcessor_py.ZipProcessor.unzip_files self w = (r, w') →
  events w' =
  match cwd w !! ZipProcessor_py.ZipProcessor.temp_directory self with
  | Some _ => [Printed "WARNING: temp dir already present!"]
  | None => []
  end ++ events w.
Proof.
  unfold ZipProcessor_py.ZipProcessor.unzip_files.
  rewrite bind_run, mkdir_or_warn_run. intros E.
  assert (respects quiet
    (with_ (ZipFile_open (ZipProcessor_py.ZipProcessor.filename self)) close
       (λ zip, ZipFile_extractall zip
                 (ZipProcessor_py.ZipProcessor.temp_directory self))))
    as Hrest.
  { apply respects_with; [apply _ | | | ].
    - apply respects_reads; [apply _ | apply ZipFile_open_reads].
    - apply respects_reads; [apply _ | apply close_reads].
    - intros zip. apply respects_for_each; [apply _|].
      apply ZipFile_extract_quiet. }
  rewrite (Hrest _ _ _ E). unfold after_mkdir.
  by destruct (cwd w !! ZipProcessor_py.ZipProcessor.temp_directory self).
Qed.
End InPlace.

Section ImageInPlace.
Context `{PIL}.

Lemma image_body_in_place dir filename :
  respects (in_place dir)
    (im ← Image_open dir filename;
     scaled ← Image_resize im (640, 480)%N;
     Image_save scaled dir filename).
Proof.
  intros w r w'. rewrite bind_run. unfold Image_open at 1.
  rewrite bind_run. unfold lookup_child at 1. rewrite bind_run. simpl.
  destruct (cwd w !! dir) as [[b0|here]|] eqn:Hdir;
    try (intros [= <- <-]; by left).
  destruct (here !! filename) as [[b|d]|] eqn:Hname; simpl;
    try (intros [= <- <-]; by left).
  destruct (image_identify b) as [f| |e]; simpl;
    try (intros [= <- <-]; by left).
  rewrite bind_run. unfold Image_resize.
  destruct (image_load f) as [e|im]; simpl; [intros [= <- <-]; by left|].
  unfold Image_save.
  destruct (image_encode filename (image_resize im (640, 480)%N))
    as [b'|ext|format|e partial].
  - rewrite (store_child_existing dir filename b' here b) by done.
    intros [= <- <-]. right. exists here. eexists. split_and!; [done..|].
    by eapply same_names_insert.
  - intros [= <- <-]. by left.
  - intros [= <- <-]. by left.
  - rewrite bind_run.
    rewrite (store_child_existing dir filename partial here b) by done.
    intros [= <- <-]. right. exists here. eexists. split_and!; [done..|].
    by eapply same_names_insert.
Qed.

Lemma scale_files_in_place (self : ScaleZip_py.ScaleZip.t) :
  respects (in_place (ScaleZip_py.ScaleZip.temp_directory self))
    (ScaleZip_py.ScaleZip.process_files self).
Proof.
  apply respects_bind; [apply _ | |intros names].
  - apply respects_reads; [apply _ | apply Path_iterdir_reads].
  - apply respects_for_each; [apply _|]. intros filename.
    apply image_body_in_place.
Qed.
End ImageInPlace.

(** ** What a run touches and what it prints *)

Section Runs.
Context `{ZipCodec}.
Import ZipProcessor_py.

Lemma pipeline_frame (base : ZipProcessor.t) (process : M unit) w r w' name :
  ZipProcessor.filename base ≠ ZipProcessor.temp_directory base →
  respects (touches_only (ZipProcessor.temp_directory base)) process →
  (ZipProcessor.unzip_files base ;; process ;; ZipProcessor.zip_files base) w
    = (r, w') →
  name ≠ ZipProcessor.filename base →
  name ≠ ZipProcessor.temp_directory base →
  cwd w' !! name = cwd w !! name.
Proof.
  intros Hne Hprocess E Hnf Hnt. rewrite bind_run in E.
  destruct (ZipProcessor.unzip_files base w) as [[[]|e1] w1] eqn:E1.
  2:{ injection E as <- <-.
      destruct (unzip_files_touches base _ _ _ E1) as [Hsame _].
      by apply Hsame. }
  destruct (unzip_files_touches base _ _ _ E1) as [Hsame1 _].
  rewrite bind_run in E.
  destruct (process w1) as [[[]|e2] w2] eqn:E2.
  2:{ injection E as <- <-. destruct (Hprocess _ _ _ E2) as [Hsame _].
      by rewrite Hsame, Hsame1. }
  destruct (Hprocess _ _ _ E2) as [Hsame2 _].
  rewrite zip_files_run in E by done. simpl in E.
  rewrite <- Hsame1, <- Hsame2 by done.
  destruct (cwd w2 !! ZipProcessor.filename base) as [[b|d]|];
    destruct (cwd w2 !! ZipProcessor.temp_directory base) as [[b'|here]|];
    injection E as <- <-; simpl;
    by rewrite ?lookup_delete_ne, ?lookup_insert_ne by done.
Qed.

Lemma pipeline_events (base : ZipProcessor.t) (process : M unit) w r w' :
  ZipProcessor.filename base ≠ ZipProcessor.temp_directory base →
  respects quiet process →
  (ZipProcessor.unzip_files base ;; process ;; ZipProcessor.zip_files base) w
    = (r, w') →
  events w' = run_events (ZipProcessor.temp_directory base) w r ++ events w.
Proof.
  intros Hne Hprocess E. unfold run_events. rewrite bind_run in E.
  destruct (ZipProcessor.unzip_files base w) as [[[]|e1] w1] eqn:E1;
    apply unzip_files_events in E1.
  2:{ by injection E as <- <-. }
  rewrite bind_run in E.
  destruct (process w1) as [[[]|e2] w2] eqn:E2;
    apply Hprocess in E2; unfold quiet in E2.
  2:{ injection E as <- <-. by rewrite E2. }
  rewrite zip_files_run in E by done. simpl in E.
  destruct (cwd w2 !! ZipProcessor.filename base) as [[b|d]|];
    destruct (cwd w2 !! ZipProcessor.temp_directory base) as [[b'|here]|];
    injection E as <- <-; simpl; by rewrite E2, E1.
Qed.
End Runs.

Lemma respects_impl {A} (R1 R2 : relation world) (m : M A) :
  (∀ w w', R1 w w' → R2 w w') → respects R1 m → respects R2 m.
Proof. intros Himpl Hm w r w' E. by eapply Himpl, Hm. Qed.

(** X5.  Whatever its outcome, a run of any of the pipelines leaves every
    name of the current directory other than the archive and the temporary
    directory as it was: the subclasses and the superclass of
    [ZipProcessor.py], [ScaleZip.py], the manager object of [ZipReplace.py]
    and both processors of [ZipProcessorComposition.py]. *)
Theorem runs_touch_two_names `{Platform} `{ZipCodec} `{PIL}
    (filename : string) (search replace : str) (w : world) (name : string) :
  let temp := "unzipped-" +:+ filename in
  let kept (run : outcome () * world) := cwd run.2 !! name = cwd w !! name in
  name ≠ filename →
  name ≠ temp →
  kept (ZipProcessor_py.ZipProcessor.process_zip
          (ZipProcessor_py.ZipReplace.__init__ filename search replace) w) ∧
  kept (ZipProcessor_py.ZipProcessor.process_zip
          (ZipProcessor_py.ZipProcessor.__init__ filename) w) ∧
  kept (ScaleZip_py.ZipProcessor.process_zip
          (ScaleZip_py.ScaleZip.__init__ filename) w) ∧
  kept (ZipReplace_py.ZipReplace.zip_find_replace
          (ZipReplace_py.ZipReplace.__init__ filename search replace) w) ∧
  kept (ZipProcessorComposition_py.ZipProcessor.process_zip
          (ZipProcessorComposition_py.ZipProcessor.__init__
             (ZipProcessorComposition_py.ZipReplace.__init__ search replace)
             filename) w) ∧
  kept (ZipProcessorComposition_py.ZipProcessor.process_zip
          (ZipProcessorComposition_py.ZipProcessor.__init__
             ZipProcessorComposition_py.ScaleZip.__init__ filename) w).
Proof.
  intros temp kept Hnf Hnt.
  assert (∀ (process : M unit) run,
    respects (touches_only temp) process →
    run = (ZipProcessor_py.ZipProcessor.unzip_files
             (ZipProcessor_py.ZipProcessor.__init__ filename) ;;
           process ;;
           ZipProcessor_py.ZipProcessor.zip_files
             (ZipProcessor_py.ZipProcessor.__init__ filename)) w →
    kept run) as Hkept.
  { intros process [r w'] Hprocess E. symmetry in E.
    by apply (pipeline_frame
      (ZipProcessor_py.ZipProcessor.__init__ filename) process
      w r w' name (temp_directory_fresh_name filename) Hprocess E). }
  split_and!.
  - apply (Hkept (ZipProcessor_py.ZipReplace.process_files
                    (ZipProcessor_py.ZipReplace.__init__
                       filename search replace)));
      [apply process_files_touches | done].
  - apply (Hkept (mret ())); [apply respects_ret, _ | done].
  - apply (Hkept (ScaleZip_py.ScaleZip.process_files
                    (ScaleZip_py.ScaleZip.__init__ filename)));
      [apply scale_files_touches | done].
  - apply (Hkept (ZipProcessor_py.ZipReplace.process_files
                    (ZipProcessor_py.ZipReplace.__init__
                       filename search replace)));
      [apply process_files_touches | done].
  - apply (Hkept (ZipProcessor_py.ZipReplace.process_files
                    (ZipProcessor_py.ZipReplace.__init__
                       filename search replace)));
      [apply process_files_touches | done].
  - apply (Hkept (ScaleZip_py.ScaleZip.process_files
                    (ScaleZip_py.ScaleZip.__init__ filename)));
      [apply scale_files_touches | done].
Qed.

Lemma runs_touch_two_names_witness :
  cwd (@ZipReplace_py.ZipReplace.zip_find_replace posix_utf8 stored
         (ZipReplace_py.ZipReplace.__init__ "sample.zip"
            (py "Maria") (py "Mario")) bystander).2 !! "keep.txt"
  = Some (File (raw "mine")).
Proof.
  pose proof (@runs_touch_two_names posix_utf8 stored blank
                "sample.zip" (py "Maria") (py "Mario") bystander "keep.txt")
    as Hkept.
  cbv zeta in Hkept.
  assert ("keep.txt" ≠ "sample.zip") as H1 by done.
  assert ("keep.txt" ≠ "unzipped-" +:+ "sample.zip") as H2 by done.
  destruct (Hkept H1 H2) as (_ & _ & _ & Hrun & _).
  etrans; [exact Hrun | by vm_compute].
Defined.

(** X6.  What a run of any of the pipelines prints and removes, whatever
    its outcome: nothing, but the warning, once and before anything else,
    when the name of the temporary directory was taken, and the one call of
    [shutil.rmtree] at the end of a run that succeeds.  No pipeline reports
    the entry it is working on or the step that failed. *)
Theorem runs_print_only_the_warning `{Platform} `{ZipCodec} `{PIL}
    (filename : string) (search replace : str) (w : world) :
  let temp := "unzipped-" +:+ filename in
  let logged (run : outcome () * world) :=
    events run.2 =
    match run.1 with
    | Ok _ => [Rmtree temp]
    | Raise _ => []
    end ++
    match cwd w !! temp with
    | Some _ => [Printed "WARNING: temp dir already present!"]
    | None => []
    end ++ events w in
  logged (ZipProcessor_py.ZipProcessor.process_zip
            (ZipProcessor_py.ZipReplace.__init__ filename search replace) w) ∧
  logged (ZipProcessor_py.ZipProcessor.process_zip
            (ZipProcessor_py.ZipProcessor.__init__ filename) w) ∧
  logged (ScaleZip_py.ZipProcessor.process_zip
            (ScaleZip_py.ScaleZip.__init__ filename) w) ∧
  logged (ZipReplace_py.ZipReplace.zip_find_replace
            (ZipReplace_py.ZipReplace.__init__ filename search replace) w) ∧
  logged (ZipProcessorComposition_py.ZipProcessor.process_zip
            (ZipProcessorComposition_py.ZipProcessor.__init__
               (ZipProcessorComposition_py.ZipReplace.__init__ search replace)
               filename) w) ∧
  logged (ZipProcessorComposition_py.ZipProcessor.process_zip
            (ZipProcessorComposition_py.ZipProcessor.__init__
               ZipProcessorComposition_py.ScaleZip.__init__ filename) w).
Proof.
  intros temp logged.
  assert (∀ (process : M unit) run,
    respects quiet process →
    run = (ZipProcessor_py.ZipProcessor.unzip_files
             (ZipProcessor_py.ZipProcessor.__init__ filename) ;;
           process ;;
           ZipProcessor_py.ZipProcessor.zip_files
             (ZipProcessor_py.ZipProcessor.__init__ filename)) w →
    logged run) as Hlogged.
  { intros process [r w'] Hprocess E. symmetry in E. unfold logged.
    cbn [fst snd].
    rewrite (pipeline_events
      (ZipProcessor_py.ZipProcessor.__init__ filename) process
      w r w' (temp_directory_fresh_name filename) Hprocess E).
    unfold run_events. simpl. by rewrite <- app_assoc. }
  assert (respects quiet
            (ZipProcessor_py.ZipReplace.process_files
               (ZipProcessor_py.ZipReplace.__init__ filename search replace)))
    as Htext.
  { eapply respects_impl; [apply in_place_quiet|].
    apply process_files_in_place. }
  assert (respects quiet
            (ScaleZip_py.ScaleZip.process_files
               (ScaleZip_py.ScaleZip.__init__ filename))) as Himage.
  { eapply respects_impl; [apply in_place_quiet|].
    apply scale_files_in_place. }
  split_and!.
  - by apply (Hlogged _ _ Htext).
  - apply (Hlogged (mret ())); [apply respects_ret, _ | done].
  - by apply (Hlogged _ _ Himage).
  - by apply (Hlogged _ _ Htext).
  - by apply (Hlogged _ _ Htext).
  - by apply (Hlogged _ _ Himage).
Qed.

(** ** Leftovers of an earlier run *)



(** ** [zip_files] on its own *)



(** ** The transforms work in place *)

(** X8.  Whatever their outcome, the transforms, [process_files] of the
    two subclasses and [find_replace] of [ZipReplace.py], add no entry to
    the temporary directory and remove none: afterwards it holds the same
    names, the subdirectories as they were and the regular files with some
    content; everything else, the archive among it, is as it was and
    nothing is printed. *)
Theorem transforms_keep_names `{Platform} `{PIL}
    (filename : string) (search replace : str)
    (here : gmap string node) (w : world) (r : outcome ()) (w' : world) :
  let temp := "unzipped-" +:+ filename in
  cwd w !! temp = Some (Dir here) →
  ZipProcessor_py.ZipReplace.process_files
    (ZipProcessor_py.ZipReplace.__init__ filename search replace) w = (r, w') ∨
  ZipReplace_py.ZipReplace.find_replace
    (ZipReplace_py.ZipReplace.__init__ filename search replace) w = (r, w') ∨
  ScaleZip_py.ScaleZip.process_files
    (ScaleZip_py.ScaleZip.__init__ filename) w = (r, w') →
  ∃ here',
    w' = World (<[temp := Dir here']> (cwd w)) (zip_members w) (events w) ∧
    same_names here here'.
Proof.
  intros temp Hdir [E|[E|E]]; apply (in_place_inv temp); try done.
  - by apply (process_files_in_place
                (ZipProcessor_py.ZipReplace.__init__ filename search replace)
                w r w').
  - by apply (process_files_in_place
                (ZipProcessor_py.ZipReplace.__init__ filename search replace)
                w r w').
  - by apply (scale_files_in_place
                (ScaleZip_py.ScaleZip.__init__ filename) w r w').
Qed.

Lemma transforms_keep_names_witness :
  ∃ here' b',
    cwd (@ZipReplace_py.ZipReplace.find_replace posix_utf8
           (ZipReplace_py.ZipReplace.__init__ "a.zip"
              (py "Maria") (py "Mario")) plain_text).2
      !! "unzipped-a.zip" = Some (Dir here') ∧
    here' !! "note.txt" = Some (File b') ∧
    here' !! "other.txt" = None.
Proof.
  pose proof (@transforms_keep_names posix_utf8 blank
                "a.zip" (py "Maria") (py "Mario")
                {[ "note.txt" := File (raw "Hello Maria") ]} plain_text
                (@ZipReplace_py.ZipReplace.find_replace posix_utf8
                   (ZipReplace_py.ZipReplace.__init__ "a.zip"
                      (py "Maria") (py "Mario")) plain_text).1
                (@ZipReplace_py.ZipReplace.find_replace posix_utf8
                   (ZipReplace_py.ZipReplace.__init__ "a.zip"
                      (py "Maria") (py "Mario")) plain_text).2) as Hrun.
  cbv zeta in Hrun.
  assert (cwd plain_text !! ("unzipped-" +:+ "a.zip")
          = Some (Dir {[ "note.txt" := File (raw "Hello Maria") ]})) as H1
    by by vm_compute.
  destruct (Hrun H1) as (here' & E & Hsame).
  { right. left. apply surjective_pairing. }
  pose proof (Hsame "note.txt") as Hnote.
  pose proof (Hsame "other.txt") as Hother.
  assert (({[ "note.txt" := File (raw "Hello Maria") ]} : gmap string node)
            !! "note.txt" = Some (File (raw "Hello Maria"))) as E1
    by by vm_compute.
  assert (({[ "note.txt" := File (raw "Hello Maria") ]} : gmap string node)
            !! "other.txt" = None) as E2 by by vm_compute.
  rewrite E1 in Hnote. rewrite E2 in Hother. destruct Hnote as [b' Hb'].
  exists here', b'. split_and!; [|done..].
  rewrite E. simpl. by rewrite lookup_insert_eq.
Defined.

(** ** A text that cannot be written back *)

Section EncodeError.
Context `{Platform}.

Lemma text_loop_encode_error dir old new (l : list string) here w w' :
  NoDup l →
  cwd w !! dir = Some (Dir here) →
  for_each l (λ filename,
    contents ← with_ (Path_open dir filename) close
      (λ file,
        contents ← file_read file;
        mret (str_replace contents old new));
    with_ (Path_open_w dir filename) close (λ file,
      file_write file contents)) w = (Raise UnicodeEncodeError, w') →
  ∃ name b t here',
    name ∈ l ∧ here !! name = Some (File b) ∧ text_read b = Some t ∧
    text_write (str_replace t old new) = None ∧
    cwd w' !! dir = Some (Dir here') ∧ here' !! name = Some (File []).
Proof.
  revert here w. induction l as [|x l IH]; intros here w Hnodup Hdir;
    [done|].
  apply NoDup_cons in Hnodup as [Hx Hnodup].
  cbn [for_each]. rewrite bind_run.
  match goal with
  | |- context [match ?body w with _ => _ end] =>
      destruct (body w) as [r w1] eqn:E1
  end.
  apply text_body_run in E1
    as [(-> & Hok & Henc)|(here0 & b & t & Hdir0 & Hname & Ht & E1)].
  { destruct r as [[]|e]; [done|]. intros [= -> _]. done. }
  rewrite Hdir in Hdir0. injection Hdir0 as <-.
  destruct (text_write (str_replace t old new)) as [b'|] eqn:Hw;
    destruct E1 as [-> ->].
  - intros E.
    apply (IH (<[x := File b']> here)) in E
      as (name & b0 & t0 & here' & Hin & Hname0 & Ht0 & Hw0 & Hdir' & Hempty);
      [ | done | simpl; by rewrite lookup_insert_eq].
    assert (name ≠ x) as Hne by (by intros ->).
    rewrite lookup_insert_ne in Hname0 by done.
    exists name, b0, t0, here'. split_and!; [by right | done..].
  - intros [= <-]. exists x, b, t. eexists. split_and!; [by left | done..| |].
    + simpl. by rewrite lookup_insert_eq.
    + by rewrite lookup_insert_eq.
Qed.
End EncodeError.

(** X9.  When the text transform raises [UnicodeEncodeError], an entry of
    the temporary directory has lost its content: the file was opened for
    writing, which empties it, before its new text turned out not to be
    encodable, and the loop stopped there.  The entry held text that could
    be read, and what could not be written is that text after the
    replacement. *)
Theorem encode_error_empties_entry `{Platform}
    (filename : string) (search replace : str)
    (here : gmap string node) (w w' : world) :
  let temp := "unzipped-" +:+ filename in
  cwd w !! temp = Some (Dir here) →
  ZipProcessor_py.ZipReplace.process_files
    (ZipProcessor_py.ZipReplace.__init__ filename search replace) w
    = (Raise UnicodeEncodeError, w') ∨
  ZipReplace_py.ZipReplace.find_replace
    (ZipReplace_py.ZipReplace.__init__ filename search replace) w
    = (Raise UnicodeEncodeError, w') →
  ∃ name b t here',
    here !! name = Some (File b) ∧ text_read b = Some t ∧
    text_write (str_replace t search replace) = None ∧
    cwd w' !! temp = Some (Dir here') ∧ here' !! name = Some (File []).
Proof.
  intros temp Hdir E.
  assert (ZipProcessor_py.ZipReplace.process_files
            (ZipProcessor_py.ZipReplace.__init__ filename search replace) w
          = (Raise UnicodeEncodeError, w')) as E' by by destruct E.
  clear E. unfold ZipProcessor_py.ZipReplace.process_files in E'.
  rewrite bind_run in E'. unfold Path_iterdir in E'. rewrite bind_run in E'.
  change (ZipProcessor_py.ZipReplace.temp_directory
            (ZipProcessor_py.ZipReplace.__init__ filename search replace))
    with temp in E'.
  cbn [get_cwd fst snd] in E'. rewrite Hdir in E'.
  apply (text_loop_encode_error temp search replace _ here) in E'
    as (name & b & t & here' & _ & Hrest);
    [ | apply NoDup_fst_map_to_list | done].
  by exists name, b, t, here'.
Qed.

Lemma encode_error_empties_entry_witness :
  ∃ here',
    cwd (@ZipReplace_py.ZipReplace.find_replace posix_utf8
           (ZipReplace_py.ZipReplace.__init__ "a.zip"
              (py "Maria") [0xDC80%N]) plain_text).2
      !! "unzipped-a.zip" = Some (Dir here') ∧
    here' !! "note.txt" = Some (File []).
Proof.
  pose proof (@encode_error_empties_entry posix_utf8
                "a.zip" (py "Maria") [0xDC80%N]
                {[ "note.txt" := File (raw "Hello Maria") ]} plain_text
                (@ZipReplace_py.ZipReplace.find_replace posix_utf8
                   (ZipReplace_py.ZipReplace.__init__ "a.zip"
                      (py "Maria") [0xDC80%N]) plain_text).2) as Hrun.
  cbv zeta in Hrun.
  assert (cwd plain_text !! ("unzipped-" +:+ "a.zip")
          = Some (Dir {[ "note.txt" := File (raw "Hello Maria") ]})) as H1
    by by vm_compute.
  assert (@ZipReplace_py.ZipReplace.find_replace posix_utf8
            (ZipReplace_py.ZipReplace.__init__ "a.zip"
               (py "Maria") [0xDC80%N]) plain_text
          = (Raise UnicodeEncodeError,
             (@ZipReplace_py.ZipReplace.find_replace posix_utf8
                (ZipReplace_py.ZipReplace.__init__ "a.zip"
                   (py "Maria") [0xDC80%N]) plain_text).2)) as H2.
  { apply injective_projections; [by vm_compute | done]. }
  destruct (Hrun H1 (or_intror H2))
    as (name & b & t & here' & Hname & _ & _ & Hdir' & Hempty).
  exists here'. split; [done|].
  destruct (decide (name = "note.txt")) as [<-|Hne]; [done|].
  exfalso. revert Hname.
  assert (({[ "note.txt" := File (raw "Hello Maria") ]} : gmap string node)
          = <["note.txt" := File (raw "Hello Maria")]> ∅) as -> by done.
  by rewrite lookup_insert_ne, lookup_empty.
Defined.

(** ** A search string that does not occur *)

(** X10.  When the text transform succeeds, an entry in whose text the
    search string does not occur is written back as its own text: the text
    as it was read, with universal newlines, encoded again with the line
    separator of the platform. *)
Theorem find_replace_absent_search `{Platform}
    (filename : string) (search replace : str)
    (here : gmap string node) (w w' : world) :
  let temp := "unzipped-" +:+ filename in
  cwd w !! temp = Some (Dir here) →
  ZipProcessor_py.ZipReplace.process_files
    (ZipProcessor_py.ZipReplace.__init__ filename search replace) w
    = (Ok (), w') ∨
  ZipReplace_py.ZipReplace.find_replace
    (ZipReplace_py.ZipReplace.__init__ filename search replace) w
    = (Ok (), w') →
  ∃ here',
    cwd w' !! temp = Some (Dir here') ∧
    ∀ name b, here !! name = Some (File b) →
      ∃ t, text_read b = Some t ∧
           (¬ occurs search t →
            ∃ b', text_write t = Some b' ∧ here' !! name = Some (File b')).
Proof.
  intros temp Hdir E.
  assert (ZipProcessor_py.ZipReplace.process_files
            (ZipProcessor_py.ZipReplace.__init__ filename search replace) w
          = (Ok (), w')) as E' by by destruct E.
  clear E.
  apply process_files_ok in E' as (here0 & here' & Hhere & -> & Htrans).
  change (ZipProcessor_py.ZipReplace.temp_directory
            (ZipProcessor_py.ZipReplace.__init__ filename search replace))
    with temp in *.
  rewrite Hdir in Hhere. injection Hhere as <-.
  exists here'. simpl. split; [by rewrite lookup_insert_eq|].
  intros name b Hb. specialize (Htrans name). rewrite Hb in Htrans.
  destruct Htrans as (b' & Hbytes & Hb'). unfold replace_bytes in Hbytes.
  simpl in Hbytes. destruct (text_read b) as [t|]; [|done]. simpl in Hbytes.
  exists t. split; [done|]. intros Habsent.
  rewrite str_replace_absent in Hbytes by done. by exists b'.
Qed.

Lemma find_replace_absent_search_witness :
  ∃ here',
    cwd (@ZipReplace_py.ZipReplace.find_replace posix_utf8
           (ZipReplace_py.ZipReplace.__init__ "a.zip"
              (py "Q") (py "Mario")) plain_text).2
      !! "unzipped-a.zip" = Some (Dir here') ∧
    ∀ name b,
      ({[ "note.txt" := File (raw "Hello Maria") ]} : gmap string node)
        !! name = Some (File b) →
      ∃ t, @text_read posix_utf8 b = Some t ∧
           (¬ occurs (py "Q") t →
            ∃ b', @text_write posix_utf8 t = Some b' ∧
                  here' !! name = Some (File b')).
Proof.
  pose proof (@find_replace_absent_search posix_utf8
                "a.zip" (py "Q") (py "Mario")
                {[ "note.txt" := File (raw "Hello Maria") ]} plain_text
                (@ZipReplace_py.ZipReplace.find_replace posix_utf8
                   (ZipReplace_py.ZipReplace.__init__ "a.zip"
                      (py "Q") (py "Mario")) plain_text).2) as Hrun.
  cbv zeta in Hrun.
  assert (cwd plain_text !! ("unzipped-" +:+ "a.zip")
          = Some (Dir {[ "note.txt" := File (raw "Hello Maria") ]})) as H1
    by by vm_compute.
  assert (@ZipReplace_py.ZipReplace.find_replace posix_utf8
            (ZipReplace_py.ZipReplace.__init__ "a.zip"
               (py "Q") (py "Mario")) plain_text
          = (Ok (),
             (@ZipReplace_py.ZipReplace.find_replace posix_utf8
                (ZipReplace_py.ZipReplace.__init__ "a.zip"
                   (py "Q") (py "Mario")) plain_text).2)) as H2.
  { apply injective_projections; [by vm_compute | done]. }
  exact (Hrun H1 (or_intror H2)).
Defined.

(** ** The scripts *)

Section Scripts.
Context `{Platform} `{ZipCodec} `{PIL}.

Lemma text_run_events (filename : string) (search replace : str) w :
  let run :=
    ZipProcessor_py.ZipProcessor.process_zip
      (ZipProcessor_py.ZipReplace.__init__ filename search replace) w in
  events run.2 = run_events ("unzipped-" +:+ filename) w run.1 ++ events w.
Proof.
  intros run. destruct run as [r w'] eqn:E. subst run.
  apply (pipeline_events
    (ZipProcessor_py.ZipProcessor.__init__ filename)
    (ZipProcessor_py.ZipReplace.process_files
       (ZipProcessor_py.ZipReplace.__init__ filename search replace))
    w r w' (temp_directory_fresh_name filename)); [|done].
  eapply respects_impl; [apply in_place_quiet|].
  apply process_files_in_place.
Qed.

Lemma scale_run_events (filename : string) w :
  let run :=
    ScaleZip_py.ZipProcessor.process_zip
      (ScaleZip_py.ScaleZip.__init__ filename) w in
  events run.2 = run_events ("unzipped-" +:+ filename) w run.1 ++ events w.
Proof.
  intros run. destruct run as [r w'] eqn:E. subst run.
  apply (pipeline_events
    (ZipProcessor_py.ZipProcessor.__init__ filename)
    (ScaleZip_py.ScaleZip.process_files
       (ScaleZip_py.ScaleZip.__init__ filename))
    w r w' (temp_directory_fresh_name filename)); [|done].
  eapply respects_impl; [apply in_place_quiet|].
  apply scale_files_in_place.
Qed.

(** A script that runs [run] and then prints [line]. *)
Lemma run_then_print (run : M unit) (line : string) w :
  let script := (run ;; print line) w in
  script.1 = (run w).1 ∧
  cwd script.2 = cwd (run w).2 ∧
  events script.2 =
  match (run w).1 with
  | Ok _ => [Printed line]
  | Raise _ => []
  end ++ events (run w).2.
Proof.
  intros script. subst script. rewrite bind_run.
  by destruct (run w) as [[[]|e] w'].
Qed.
End Scripts.

(** X11.  Started with another number of arguments than it takes, three
    for [ZipReplace.py] and [ZipProcessor.py] and one for [ScaleZip.py], a
    script prints the two lines of its usage message, the same message in
    [ZipProcessor.py] as in [ZipReplace.py], touches no file, and ends
    normally: no exception leaves it. *)
Theorem main_wrong_argument_count `{Platform} `{ZipCodec} `{PIL} `{Repr}
    (argv : list string) (w : world) :
  let usage (example : string) : outcome () * world :=
    (Ok (),
     World (cwd w) (zip_members w)
       (Printed ("Usage example:" +:+ newline +:+ example)
          :: Printed "Please check the number of arguments" :: events w)) in
  (length (drop 1 argv) ≠ 3 →
   ZipReplace_py.main argv w
     = usage "python ZipReplace.py prova.zip Maria Mario" ∧
   ZipProcessor_py.main argv w
     = usage "python ZipReplace.py prova.zip Maria Mario") ∧
  (length (drop 1 argv) ≠ 1 →
   ScaleZip_py.main argv w = usage "python ScaleZip.py immagini.zip").
Proof.
  intros usage. split.
  - intros Hlen. unfold ZipReplace_py.main, ZipProcessor_py.main.
    destruct (drop 1 argv) as [|a1 [|a2 [|a3 [|a4 l]]]]; by simpl in *.
  - intros Hlen. unfold ScaleZip_py.main.
    destruct (drop 1 argv) as [|a1 [|a2 l]]; by simpl in *.
Qed.

Lemma main_wrong_argument_count_witness :
  @ZipProcessor_py.main posix_utf8 stored quoted
    ["ZipProcessor.py"; "sample.zip"; "Maria"] bystander
  = (Ok (),
     World (cwd bystander) []
       [Printed ("Usage example:" +:+ newline
                 +:+ "python ZipReplace.py prova.zip Maria Mario");
        Printed "Please check the number of arguments"]) ∧
  @ScaleZip_py.main stored blank quoted ["ScaleZip.py"] bystander
  = (Ok (),
     World (cwd bystander) []
       [Printed ("Usage example:" +:+ newline
                 +:+ "python ScaleZip.py immagini.zip");
        Printed "Please check the number of arguments"]).
Proof.
  pose proof (@main_wrong_argument_count posix_utf8 stored blank quoted
                ["ZipProcessor.py"; "sample.zip"; "Maria"] bystander)
    as [Htext _].
  pose proof (@main_wrong_argument_count posix_utf8 stored blank quoted
                ["ScaleZip.py"] bystander) as [_ Hscale].
  assert (length (drop 1 ["ZipProcessor.py"; "sample.zip"; "Maria"]) ≠ 3)
    as H1 by done.
  assert (length (drop 1 ["ScaleZip.py"]) ≠ 1) as H2 by done.
  split; [exact (proj2 (Htext H1)) | exact (Hscale H2)].
Defined.

(** X12.  Started with the right number of arguments, a script has the
    outcome of its run: an exception of the run leaves the script, nothing
    catches it.  The files are those the run leaves.  The script prints
    its line, [... executed with parameters:] and the arguments, after a
    run that succeeds and only then; together with what the run prints,
    this is all a script prints: when it ends with an exception it has
    printed at most the warning. *)
Theorem main_reports_after_success `{Platform} `{ZipCodec} `{PIL} `{Repr}
    (prog filename search replace : string) (w : world) :
  let temp := "unzipped-" +:+ filename in
  let warning :=
    match cwd w !! temp with
    | Some _ => [Printed "WARNING: temp dir already present!"]
    | None => []
    end in
  let reported (line : string) (run script : outcome () * world) :=
    script.1 = run.1 ∧
    cwd script.2 = cwd run.2 ∧
    events script.2 =
    match script.1 with
    | Ok _ => [Printed line; Rmtree temp]
    | Raise _ => []
    end ++ warning ++ events w in
  reported
    ("ZipReplace.zip_find_replace() executed with parameters: " +:+ " "
     +:+ repr_list [filename; search; replace])
    (ZipReplace_py.ZipReplace.zip_find_replace
       (ZipReplace_py.ZipReplace.__init__ filename (py search) (py replace))
       w)
    (ZipReplace_py.main [prog; filename; search; replace] w) ∧
  reported
    ("ZipReplace.zip_find_replace() executed with parameters: " +:+ " "
     +:+ repr_list [filename; search; replace])
    (ZipProcessor_py.ZipProcessor.process_zip
       (ZipProcessor_py.ZipReplace.__init__ filename (py search) (py replace))
       w)
    (ZipProcessor_py.main [prog; filename; search; replace] w) ∧
  reported
    ("ScaleZip.process_zip() executed with parameters: " +:+ " "
     +:+ repr_list [filename])
    (ScaleZip_py.ZipProcessor.process_zip
       (ScaleZip_py.ScaleZip.__init__ filename) w)
    (ScaleZip_py.main [prog; filename] w).
Proof.
  intros temp warning reported.
  assert (∀ (run : M unit) line,
    events (run w).2 = run_events temp w (run w).1 ++ events w →
    reported line (run w) ((run ;; print line) w)) as Hreported.
  { intros run line Hevents.
    destruct (run_then_print run line w) as (Hout & Hcwd & Hlog).
    unfold reported. split_and!; [done..|].
    rewrite Hlog, Hout, Hevents. unfold run_events. fold warning.
    destruct (run w).1; simpl; by rewrite <- ?app_assoc. }
  split_and!.
  - apply (Hreported (ZipReplace_py.ZipReplace.zip_find_replace
                        (ZipReplace_py.ZipReplace.__init__
                           filename (py search) (py replace)))).
    apply (text_run_events filename (py search) (py replace) w).
  - apply (Hreported (ZipProcessor_py.ZipProcessor.process_zip
                        (ZipProcessor_py.ZipReplace.__init__
                           filename (py search) (py replace)))).
    apply (text_run_events filename (py search) (py replace) w).
  - apply (Hreported (ScaleZip_py.ZipProcessor.process_zip
                        (ScaleZip_py.ScaleZip.__init__ filename))).
    apply (scale_run_events filename w).
Qed.

(** X13.  As scripts, [ZipProcessor.py] and [ZipReplace.py] are the same
    program: on every argument list and in every current directory they
    have the same outcome, leave the same files and print the same lines,
    down to the name [ZipReplace.zip_find_replace()] in the line that
    [ZipProcessor.py] prints after its [process_zip]. *)
Theorem ZipProcessor_script_is_ZipReplace_script
    `{Platform} `{ZipCodec} `{Repr} (argv : list string) (w : world) :
  ZipProcessor_py.main argv w = ZipReplace_py.main argv w.
Proof. reflexivity. Qed.

(** X14.  The calls at the end of [ZipProcessorComposition.py] run one
    after the other and nothing catches an exception between them: when
    the image run on [Immagini.zip] raises, the script ends with that
    exception and the text run on [provaReplace.zip] does not take place;
    otherwise the script is the text run in what the image run left.
    Either way the image run leaves [provaReplace.zip] and the name of its
    temporary directory as they were. *)
Theorem examples_in_sequence `{Platform} `{ZipCodec} `{PIL} (w : world) :
  let first :=
    ZipProcessorComposition_py.ZipProcessor.process_zip
      (ZipProcessorComposition_py.ZipProcessor.__init__
         ZipProcessorComposition_py.ScaleZip.__init__ "Immagini.zip") w in
  let second :=
    ZipProcessorComposition_py.ZipProcessor.process_zip
      (ZipProcessorComposition_py.ZipProcessor.__init__
         (ZipProcessorComposition_py.ZipReplace.__init__
            (py "Mario") (py "Maria")) "provaReplace.zip") in
  ZipProcessorComposition_py.examples w =
  match first with
  | (Ok _, w1) => second w1
  | (Raise e, w1) => (Raise e, w1)
  end ∧
  cwd first.2 !! "provaReplace.zip" = cwd w !! "provaReplace.zip" ∧
  cwd first.2 !! "unzipped-provaReplace.zip"
    = cwd w !! "unzipped-provaReplace.zip".
Proof.
  intros first second. split; [done|].
  destruct first as [r w1] eqn:E. subst first. simpl.
  split.
  - by apply (pipeline_frame
      (ZipProcessor_py.ZipProcessor.__init__ "Immagini.zip")
      (ScaleZip_py.ScaleZip.process_files
         (ScaleZip_py.ScaleZip.__init__ "Immagini.zip"))
      w r w1 "provaReplace.zip" (temp_directory_fresh_name "Immagini.zip")
      (scale_files_touches _) E).
  - by apply (pipeline_frame
      (ZipProcessor_py.ZipProcessor.__init__ "Immagini.zip")
      (ScaleZip_py.ScaleZip.process_files
         (ScaleZip_py.ScaleZip.__init__ "Immagini.zip"))
      w r w1 "unzipped-provaReplace.zip"
      (temp_directory_fresh_name "Immagini.zip")
      (scale_files_touches _) E).
Qed.

(** ** The earlier companions on concrete archives *)

Lemma scale_keeps_archive_before_repack_witness :
  cwd ((@ScaleZip_py.ZipProcessor.unzip_files stored
          (ScaleZip_py.ScaleZip.base (ScaleZip_py.ScaleZip.__init__ "photos.zip")) ;;
        @ScaleZip_py.ScaleZip.process_files blank
          (ScaleZip_py.ScaleZip.__init__ "photos.zip")) photos).2
    !! "photos.zip"
  = Some (File (stored_build
                  [("a.png", unary 100 ++ unary 100);
                   ("b.jpg", unary 1920 ++ unary 1080)])).
Proof.
  pose proof (@scale_keeps_archive_before_repack stored blank "photos.zip"
                photos
                ((@ScaleZip_py.ZipProcessor.unzip_files stored
                    (ScaleZip_py.ScaleZip.base
                       (ScaleZip_py.ScaleZip.__init__ "photos.zip")) ;;
                  @ScaleZip_py.ScaleZip.process_files blank
                    (ScaleZip_py.ScaleZip.__init__ "photos.zip")) photos).1
                ((@ScaleZip_py.ZipProcessor.unzip_files stored
                    (ScaleZip_py.ScaleZip.base
                       (ScaleZip_py.ScaleZip.__init__ "photos.zip")) ;;
                  @ScaleZip_py.ScaleZip.process_files blank
                    (ScaleZip_py.ScaleZip.__init__ "photos.zip")) photos).2)
    as Hkept.
  cbv zeta in Hkept.
  etrans; [apply Hkept, surjective_pairing | by vm_compute].
Defined.


(** ** The image run on images *)



